(** * Disaster-response backend: cache, record store, routes and broadcaster

    A shallow embedding of the Express/Supabase backend
    (services/cacheService.js, services/geminiService.js,
    services/mappingService.js, the route handlers under api/, socket.js,
    utils/authMiddleware.js and supabase-schema.sql), and the properties of
    its cache, audit trail, verification workflow, radius query and event
    publication.

    Conventions of the embedding:
    - JavaScript strings are sequences of code units below 256;
    - instants ([new Date()], [created_at], [expires_at]) are milliseconds
      since the epoch, the ISO-8601 rendering is not modelled;
    - JSON numbers are rationals (all literals of the source are decimals);
    - an [async] function is a computation over the [world]: the store's
      tables, the clock, the socket and the published events;
    - each call to the store may fail: the [world] carries the schedule of
      the faults the store will answer with. *)

From Stdlib Require Import Ascii String QArith Qabs Lqa Sorted.
From stdpp Require Import gmap strings list fin_maps.

Local Open Scope string_scope.
Local Open Scope list_scope.
Local Open Scope Z_scope.

(** ** JavaScript values *)

Module Js.

(** A value, as stored in a JSONB column or returned by a service: a JSON
    value, or a function object (which JSON cannot carry). *)
#[warnings="-register-all"]
Inductive json : Type :=
  | JNull
  | JBool (b : bool)
  | JNum (q : Q)
  | JStr (s : string)
  | JArr (items : list json)
  | JObj (fields : list (string * json))
  | JFunction.

(** [if (v)], [!v], [a || b]: JavaScript truthiness of a JSON value. *)
Definition truthy (v : json) : bool :=
  match v with
  | JNull => false
  | JBool b => b
  | JNum q => negb (Qeq_bool q 0)
  | JStr s => negb (String.eqb s "")
  | JArr _ | JObj _ | JFunction => true
  end.

(** [a || b] *)
Definition js_or (a b : json) : json := if truthy a then a else b.

Fixpoint assoc (k : string) (fields : list (string * json)) : option json :=
  match fields with
  | [] => None
  | (k', v) :: rest => if String.eqb k k' then Some v else assoc k rest
  end.

(** [v.k] on a value that is not [null]; [None] is [undefined]. *)
Definition prop (k : string) (v : json) : option json :=
  match v with
  | JObj fields => assoc k fields
  | _ => None
  end.

(** The properties an object literal inherits from [Object.prototype]:
    its methods, and the prototype itself under [__proto__]. *)
Definition object_prototype (k : string) : option json :=
  if existsb (String.eqb k)
       ["constructor"; "toString"; "toLocaleString"; "valueOf";
        "hasOwnProperty"; "isPrototypeOf"; "propertyIsEnumerable";
        "__defineGetter__"; "__defineSetter__";
        "__lookupGetter__"; "__lookupSetter__"]
  then Some JFunction
  else if String.eqb k "__proto__" then Some (JObj [])
  else None.

(** [table[k]] on an object literal used as a table, with a key chosen by
    the caller: own properties first, then the prototype's. *)
Definition index (table : list (string * json)) (k : string) : option json :=
  match assoc k table with
  | Some v => Some v
  | None => object_prototype k
  end.

(** [typeof v.k === 'undefined'] *)
Definition prop_undefined (k : string) (v : json) : bool :=
  match prop k v with None => true | Some _ => false end.

(** [!s] for a request field that is absent or a string. *)
Definition missing (f : option string) : bool :=
  match f with
  | None => true
  | Some s => String.eqb s ""
  end.

(** [hay.includes(needle)] *)
Fixpoint includes (needle hay : string) : bool :=
  String.prefix needle hay ||
  match hay with
  | EmptyString => false
  | String _ rest => includes needle rest
  end.

(** The character class [\s] of a regular expression, on code units below
    256: tab, line feed, vertical tab, form feed, carriage return, space
    and no-break space. *)
Definition is_space (c : ascii) : bool :=
  let n := nat_of_ascii c in
  ((9 <=? n)%nat && (n <=? 13)%nat) || (n =? 32)%nat || (n =? 160)%nat.

(** [s.replace(/\s/g, '_')]: every whitespace character, one by one. *)
Fixpoint replace_spaces (s : string) : string :=
  match s with
  | EmptyString => EmptyString
  | String c rest =>
      String (if is_space c then "_"%char else c) (replace_spaces rest)
  end.

End Js.
Export Js.

(** ** The world: store, clock, socket *)

(** A row of [public.cache]. *)
Record cache_row := CacheRow {
  cr_value : json;
  cr_expires_at : Z
}.

(** (longitude, latitude), the order of [ST_Point] and of WKT. *)
Definition point : Type := Q * Q.

(** A row of [public.disasters]. *)
Record disaster := Disaster {
  d_id : N;
  d_title : string;
  d_location_name : string;
  d_location : option point;
  d_description : string;
  d_tags : list string;
  d_owner_id : string;
  d_created_at : Z;
  d_audit_trail : json
}.

(** A row of [public.reports]. *)
Record report := Report {
  rp_id : N;
  rp_disaster_id : N;
  rp_user_id : string;
  rp_content : string;
  rp_image_url : option string;
  rp_verification_status : string;
  rp_created_at : Z
}.

(** A row of [public.resources]. *)
Record resource := Resource {
  rs_id : N;
  rs_disaster_id : N;
  rs_name : string;
  rs_location_name : string;
  rs_location : point;
  rs_type : string;
  rs_created_at : Z
}.

(** What a call to the store answers with, apart from a normal answer:
    an [error] object with a code, or a thrown exception. *)
Inductive fault : Type :=
  | NoFault
  | StoreError (code : string)
  | StoreThrow.

(** The payload of [io.emit(name, payload)]. *)
Inductive event : Type :=
  | DisasterUpdated (type : string) (d : option disaster)
  | DisasterDeleted (disasterId : N)
  | ReportCreated (disasterId : N) (r : report)
  | ReportUpdated (type : string) (r : report)
  | ResourcesUpdated (type : string) (disasterId : N) (r : resource).

(** A mutation of a record table that the store applied. *)
Inductive store_op : Type :=
  | InsertDisaster (id : N)
  | UpdateDisaster (id : N)
  | DeleteDisaster (id : N)
  | InsertReport (id : N)
  | UpdateReport (id : N)
  | InsertResource (id : N).

(** The observable history: applied mutations and published events, in
    the order in which they happened. *)
Inductive effect : Type :=
  | Applied (op : store_op)
  | Emitted (ev : event).

Record world := World {
  w_now : Z;
  w_cache : gmap string cache_row;
  w_disasters : list disaster;
  w_reports : list report;
  w_resources : list resource;
  w_next_id : N;
  w_io : bool;
  w_faults : list fault;
  w_trace : list effect
}.

(** ** Computations: state and exceptions *)

Inductive exn : Type :=
  | RangeError
  | TypeError
  | StoreException
  | SocketNotInitialized.

Inductive outcome (A : Type) : Type :=
  | Val (a : A)
  | Throw (e : exn).
Arguments Val {A} a.
Arguments Throw {A} e.

Definition M (A : Type) : Type := world -> outcome A * world.

Definition ret {A} (a : A) : M A := fun w => (Val a, w).

Definition bind {A B} (m : M A) (k : A -> M B) : M B :=
  fun w =>
    match m w with
    | (Val a, w') => k a w'
    | (Throw e, w') => (Throw e, w')
    end.

Definition throw {A} (e : exn) : M A := fun w => (Throw e, w).

(** [try { body } catch (err) { handler }] *)
Definition try_catch {A} (body : M A) (handler : exn -> M A) : M A :=
  fun w =>
    match body w with
    | (Val a, w') => (Val a, w')
    | (Throw e, w') => handler e w'
    end.

Notation "'let*' x ':=' m 'in' k" := (bind m (fun x => k))
  (at level 10, x name, m at level 100, k at level 200).

(** [new Date().getTime()] *)
Definition clock : M Z := fun w => (Val (w_now w), w).

Definition set_now (t : Z) (w : world) : world :=
  World t (w_cache w) (w_disasters w) (w_reports w) (w_resources w)
        (w_next_id w) (w_io w) (w_faults w) (w_trace w).

Definition set_cache (c : gmap string cache_row) (w : world) : world :=
  World (w_now w) c (w_disasters w) (w_reports w) (w_resources w)
        (w_next_id w) (w_io w) (w_faults w) (w_trace w).

Definition set_faults (fs : list fault) (w : world) : world :=
  World (w_now w) (w_cache w) (w_disasters w) (w_reports w) (w_resources w)
        (w_next_id w) (w_io w) fs (w_trace w).

Definition log (e : effect) (w : world) : world :=
  World (w_now w) (w_cache w) (w_disasters w) (w_reports w) (w_resources w)
        (w_next_id w) (w_io w) (w_faults w) (w_trace w ++ [e]).

(** [await new Promise(resolve => setTimeout(resolve, ms))] *)
Definition sleep (ms : Z) : M unit :=
  fun w => (Val tt, set_now (w_now w + ms) w).

(** The store takes the next fault of the schedule for the call at hand;
    an exhausted schedule means no fault. *)
Definition next_fault : M fault :=
  fun w => (Val (hd NoFault (w_faults w)), set_faults (tl (w_faults w)) w).

(** ** services/cacheService.js *)

Module CacheService.

Definition CACHE_TTL_SECONDS : Z := 3600.

(** The instants a [Date] can hold; [toISOString] throws a [RangeError]
    on any other. *)
Definition valid_date (t : Z) : bool :=
  (-8640000000000000 <=? t) && (t <=? 8640000000000000).

(** [supabase.from('cache').select('value, expires_at').eq('key', key).single()]:
    the pair of [data] and the code of [error]; no row is the error
    [PGRST116]. *)
Definition cache_select (key : string) : M (option cache_row * option string) :=
  let* f := next_fault in
  match f with
  | StoreThrow => throw StoreException
  | StoreError code => ret (None, Some code)
  | NoFault =>
      fun w =>
        match w_cache w !! key with
        | Some row => (Val (Some row, None), w)
        | None => (Val (None, Some "PGRST116"), w)
        end
  end.

(** [supabase.from('cache').delete().eq('key', key)] *)
Definition cache_delete (key : string) : M (option string) :=
  let* f := next_fault in
  match f with
  | StoreThrow => throw StoreException
  | StoreError code => ret (Some code)
  | NoFault => fun w => (Val None, set_cache (delete key (w_cache w)) w)
  end.

(** What [JSON.stringify] makes of a value inside the body of a request:
    a function object becomes [null] in an array and is left out of an
    object, at any depth. *)
Fixpoint as_json (v : json) : json :=
  match v with
  | JArr items =>
      JArr (List.map (fun x => match x with
                               | JFunction => JNull
                               | _ => as_json x
                               end) items)
  | JObj fields =>
      JObj (List.flat_map (fun kv => match snd kv with
                                     | JFunction => []
                                     | _ => [(fst kv, as_json (snd kv))]
                                     end) fields)
  | _ => v
  end.

(** The instants whose [toISOString] text the column [expires_at]
    (TIMESTAMP WITH TIME ZONE) reads: the years 0001 to 9999, which
    [toISOString] writes with four digits. The expanded years, written
    with a sign and six digits, and the year 0000 are refused. *)
Definition timestamptz_reads (t : Z) : bool :=
  (-62135596800000 <=? t) && (t <=? 253402300799999).

(** [supabase.from('cache').upsert({key, value, expires_at}, {onConflict: 'key'})].
    The row travels as JSON. A [value] that is [null], or a function
    object, which the encoding leaves out, reaches the column [value]
    (JSONB NOT NULL) as NULL and is refused (23502); an [expires_at] that
    the column does not read is refused (22009). *)
Definition cache_upsert (key : string) (row : cache_row) : M (option string) :=
  let* f := next_fault in
  match f with
  | StoreThrow => throw StoreException
  | StoreError code => ret (Some code)
  | NoFault =>
      match cr_value row with
      | JFunction | JNull => ret (Some "23502")
      | value =>
          if timestamptz_reads (cr_expires_at row)
          then fun w =>
                 (Val None,
                  set_cache (<[key := CacheRow (as_json value) (cr_expires_at row)]>
                               (w_cache w)) w)
          else ret (Some "22009")
      end
  end.

(** [error && error.code !== 'PGRST116'] *)
Definition other_error (error : option string) : bool :=
  match error with
  | Some code => negb (String.eqb code "PGRST116")
  | None => false
  end.

Definition getCache (key : string) : M json :=
  try_catch
    (let* answer := cache_select key in
     let '(data, error) := answer in
     if other_error error then ret JNull
     else
       match data with
       | Some row =>
           let* now := clock in
           if cr_expires_at row >? now then ret (cr_value row)
           else
             let* _ := cache_delete key in
             ret JNull
       | None => ret JNull
       end)
    (fun _ => ret JNull).

Definition setCache (key : string) (value : json) (ttlSeconds : Z) : M unit :=
  try_catch
    (let* now := clock in
     let expiresAt := now + ttlSeconds * 1000 in
     if negb (valid_date expiresAt) then throw RangeError
     else
       let* _ := cache_upsert key (CacheRow value expiresAt) in
       ret tt)
    (fun _ => ret tt).

End CacheService.
Export CacheService.

(** ** services/mappingService.js *)

Module MappingService.

Definition coords (lat lon : Q) : json :=
  JObj [("lat", JNum lat); ("lon", JNum lon)].

Definition MOCK_GEOCODE_RESPONSES : list (string * json) :=
  [ ("Manhattan, NYC", coords (407831 # 10000) (-739712 # 10000));
    ("Lower East Side, NYC", coords (407145 # 10000) (-739882 # 10000));
    ("Sendai, Japan", coords (382682 # 10000) (1408694 # 10000));
    ("Unknown Location", coords 0 0) ].

Definition geocode_cacheKey (locationName : string) : string :=
  "geocode_" +:+ replace_spaces locationName.

(** [MOCK_GEOCODE_RESPONSES[locationName] || MOCK_GEOCODE_RESPONSES["Unknown Location"]] *)
Definition mock_geocode (locationName : string) : json :=
  js_or (default JNull (index MOCK_GEOCODE_RESPONSES locationName))
        (default JNull (index MOCK_GEOCODE_RESPONSES "Unknown Location")).

Definition geocodeLocation (locationName : string) : M json :=
  let cacheKey := geocode_cacheKey locationName in
  let* cached := getCache cacheKey in
  if truthy cached then ret cached
  else
    let* _ := sleep 300 in
    let coords := mock_geocode locationName in
    let* _ := setCache cacheKey coords CACHE_TTL_SECONDS in
    ret coords.

End MappingService.
Export MappingService.

(** ** services/geminiService.js *)

Module GeminiService.

Definition verify_image_authentic : json :=
  JObj [("status", JStr "verified");
        ("message", JStr "Image appears authentic and relevant to disaster context.")].

Definition verify_image_manipulated : json :=
  JObj [("status", JStr "unverified");
        ("message", JStr "Image shows signs of manipulation or is irrelevant.")].

Definition verify_image_pending : json :=
  JObj [("status", JStr "pending");
        ("message", JStr "Image verification in progress (mock).")].

Definition location_cacheKey (description : string) : string :=
  "gemini_location_" +:+ replace_spaces description.

Definition image_cacheKey (imageUrl : string) : string :=
  "gemini_image_verify_" +:+ imageUrl.

Definition mock_extract (description : string) : json :=
  if includes "NYC Flood" description then JStr "Manhattan, NYC"
  else if includes "Japan earthquake" description then JStr "Sendai, Japan"
  else JStr "Unknown Location".

Definition extractLocationFromDescription (description : string) : M json :=
  let cacheKey := location_cacheKey description in
  let* cached := getCache cacheKey in
  if truthy cached then ret cached
  else
    let* _ := sleep 500 in
    let extractedLocation := mock_extract description in
    let* _ := setCache cacheKey extractedLocation CACHE_TTL_SECONDS in
    ret extractedLocation.

Definition mock_verify (imageUrl : string) : json :=
  if includes "authentic" imageUrl then verify_image_authentic
  else if includes "manipulated" imageUrl then verify_image_manipulated
  else verify_image_pending.

Definition verifyImage (imageUrl : string) : M json :=
  let cacheKey := image_cacheKey imageUrl in
  let* cached := getCache cacheKey in
  if truthy cached then ret cached
  else
    let* _ := sleep 800 in
    let verificationResult := mock_verify imageUrl in
    let* _ := setCache cacheKey verificationResult CACHE_TTL_SECONDS in
    ret verificationResult.

End GeminiService.
Export GeminiService.

(** ** The cache keys of the two remaining providers

    The keys under which [fetchSocialMediaReports] and
    [fetchOfficialUpdates] consult and fill the cache; the two services
    follow the routes, in [SocialMediaService] and [WebScrapingService]. *)

Module ProviderKeys.

(** [`social_media_${disasterId}_${query.replace(/\s/g, '_')}`] *)
Definition social_media_cacheKey (disasterId query : string) : string :=
  "social_media_" +:+ disasterId +:+ "_" +:+ replace_spaces query.

(** [`official_updates_${source}`] *)
Definition official_updates_cacheKey (source : string) : string :=
  "official_updates_" +:+ source.

End ProviderKeys.
Export ProviderKeys.

(** ** utils/authMiddleware.js *)

Record user := User {
  u_id : string;
  u_username : string;
  u_roles : list string
}.

Inductive body : Type :=
  | Message (message : string)
  | DisasterBody (d : option disaster)
  | ReportBody (r : report)
  | VerifiedReportBody (r : report) (gemini_message : option json)
  | ResourceBody (r : resource)
  | ResourceList (rs : list resource).

Record response := Response {
  status : Z;
  payload : body
}.

Module AuthMiddleware.

Definition mockUsers : list user :=
  [ User "netrunnerX" "netrunnerX" ["admin"; "contributor"];
    User "reliefAdmin" "reliefAdmin" ["admin"];
    User "citizen1" "citizen1" ["citizen"];
    User "volunteerA" "volunteerA" ["contributor"] ].

Definition has_role (role : string) (u : user) : bool :=
  existsb (String.eqb role) (u_roles u).

(** [authenticate]: the user of the [x-user-id] header, or the response
    that ends the request. *)
Definition authenticate (x_user_id : option string) : response + user :=
  if missing x_user_id then
    inl (Response 401 (Message "Authentication required. Please provide x-user-id header."))
  else
    match List.find (fun u => String.eqb (u_id u) (default "" x_user_id)) mockUsers with
    | None => inl (Response 403 (Message "Invalid user ID."))
    | Some u => inr u
    end.

(** [authorize(allowedRoles)] after [authenticate]. *)
Definition authorize (allowedRoles : list string) (u : user) : option response :=
  if existsb (fun role => has_role role u) allowedRoles then None
  else Some (Response 403 (Message "Forbidden: You do not have the necessary permissions.")).

(** [router.verb(path, authenticate, authorize(allowedRoles), handler)] *)
Definition guarded (allowedRoles : list string) (x_user_id : option string)
    (handler : user -> M response) : M response :=
  match authenticate x_user_id with
  | inl r => ret r
  | inr u =>
      match authorize allowedRoles u with
      | Some r => ret r
      | None => handler u
      end
  end.

End AuthMiddleware.
Export AuthMiddleware.

(** ** The record tables of supabase-schema.sql, as the routes call them *)

Module RecordStore.

Definition set_tables (ds : list disaster) (rps : list report)
    (rss : list resource) (next : N) (op : store_op) (w : world) : world :=
  World (w_now w) (w_cache w) ds rps rss next (w_io w) (w_faults w)
        (w_trace w ++ [Applied op]).

Definition find_disaster (id : N) (ds : list disaster) : option disaster :=
  List.find (fun d => N.eqb (d_id d) id) ds.

(** A call that answers with [{ data, error }]: the fault of the schedule
    first, the table otherwise. *)
Definition store_call {A} (run : M (option A * option string))
    : M (option A * option string) :=
  let* f := next_fault in
  match f with
  | StoreThrow => throw StoreException
  | StoreError code => ret (None, Some code)
  | NoFault => run
  end.

(** [from('disasters').insert({title, location_name, description, tags,
    owner_id, audit_trail}).select()], answering [data[0]]: [id] and
    [created_at] take their defaults, [location] stays NULL. *)
Definition disasters_insert (title location_name description : string)
    (tags : list string) (owner_id : string) (audit_trail : json)
    : M (option disaster * option string) :=
  store_call (fun w =>
    let d := Disaster (w_next_id w) title location_name None description
                      tags owner_id (w_now w) audit_trail in
    (Val (Some d, None),
     set_tables (w_disasters w ++ [d]) (w_reports w) (w_resources w)
                (N.succ (w_next_id w)) (InsertDisaster (d_id d)) w)).

(** [from('disasters').select(...).eq('id', id).single()] *)
Definition disasters_select_single (id : N)
    : M (option disaster * option string) :=
  store_call (fun w =>
    match find_disaster id (w_disasters w) with
    | Some d => (Val (Some d, None), w)
    | None => (Val (None, Some "PGRST116"), w)
    end).

(** The object given to [update]: the columns it names. *)
Record disaster_patch := Patch {
  p_audit_trail : option json;
  p_title : option string;
  p_location_name : option string;
  p_description : option string;
  p_tags : option (list string);
  p_location : option point
}.

Definition apply_patch (p : disaster_patch) (d : disaster) : disaster :=
  Disaster (d_id d)
           (default (d_title d) (p_title p))
           (default (d_location_name d) (p_location_name p))
           (match p_location p with Some pt => Some pt | None => d_location d end)
           (default (d_description d) (p_description p))
           (default (d_tags d) (p_tags p))
           (d_owner_id d)
           (d_created_at d)
           (default (d_audit_trail d) (p_audit_trail p)).

Definition patch_table (id : N) (p : disaster_patch) (ds : list disaster)
    : list disaster :=
  List.map (fun d => if N.eqb (d_id d) id then apply_patch p d else d) ds.

(** [from('disasters').update(patch).eq('id', id).select()], answering
    [data[0]], which is [undefined] when no row has that id. *)
Definition disasters_update (id : N) (p : disaster_patch)
    : M (option disaster * option string) :=
  store_call (fun w =>
    match find_disaster id (w_disasters w) with
    | Some d =>
        (Val (Some (apply_patch p d), None),
         set_tables (patch_table id p (w_disasters w)) (w_reports w)
                    (w_resources w) (w_next_id w) (UpdateDisaster id) w)
    | None => (Val (None, None), w)
    end).

(** [from('disasters').delete().eq('id', id)]; the reports and resources
    of the disaster go with it (ON DELETE CASCADE). *)
Definition disasters_delete (id : N) : M (option unit * option string) :=
  store_call (fun w =>
    match find_disaster id (w_disasters w) with
    | Some _ =>
        (Val (Some tt, None),
         set_tables
           (List.filter (fun d => negb (N.eqb (d_id d) id)) (w_disasters w))
           (List.filter (fun r => negb (N.eqb (rp_disaster_id r) id)) (w_reports w))
           (List.filter (fun r => negb (N.eqb (rs_disaster_id r) id)) (w_resources w))
           (w_next_id w) (DeleteDisaster id) w)
    | None => (Val (Some tt, None), w)
    end).

(** [from('reports').insert({disaster_id, user_id, content, image_url,
    verification_status}).select()]; [disaster_id] references
    [disasters(id)]. *)
Definition reports_insert (disaster_id : N) (user_id content : string)
    (image_url : option string) (verification_status : string)
    : M (option report * option string) :=
  store_call (fun w =>
    match find_disaster disaster_id (w_disasters w) with
    | None => (Val (None, Some "23503"), w)
    | Some _ =>
        let r := Report (w_next_id w) disaster_id user_id content image_url
                        verification_status (w_now w) in
        (Val (Some r, None),
         set_tables (w_disasters w) (w_reports w ++ [r]) (w_resources w)
                    (N.succ (w_next_id w)) (InsertReport (rp_id r)) w)
    end).

Definition report_matches (reportId disasterId : N) (r : report) : bool :=
  N.eqb (rp_id r) reportId && N.eqb (rp_disaster_id r) disasterId.

Definition set_status (st : string) (r : report) : report :=
  Report (rp_id r) (rp_disaster_id r) (rp_user_id r) (rp_content r)
         (rp_image_url r) st (rp_created_at r).

(** [from('reports').update({verification_status}).eq('id', reportId)
    .eq('disaster_id', disasterId).select()], answering [data[0]]. The
    column is TEXT NOT NULL: a status that is not a string is refused. *)
Definition reports_update_status (reportId disasterId : N)
    (verification_status : option json)
    : M (option report * option string) :=
  store_call (fun w =>
    match verification_status with
    | Some (JStr st) =>
        match List.find (report_matches reportId disasterId) (w_reports w) with
        | Some r =>
            (Val (Some (set_status st r), None),
             set_tables (w_disasters w)
               (List.map (fun r => if report_matches reportId disasterId r
                                   then set_status st r else r) (w_reports w))
               (w_resources w) (w_next_id w) (UpdateReport reportId) w)
        | None => (Val (None, None), w)
        end
    | _ => (Val (None, Some "23502"), w)
    end).

(** [from('resources').insert({disaster_id, name, location_name, type,
    location: `ST_SetSRID(ST_Point(${coords.lon}, ${coords.lat}), 4326)`})
    .select()]. The location travels as that text, whatever [lon] and
    [lat] are; the column (GEOGRAPHY) reads well-known text or binary, not
    an SQL expression, and refuses it before any other check: no row is
    inserted. *)
Definition resources_insert (disaster_id : N) (name location_name type : string)
    (lon lat : option json) : M (option resource * option string) :=
  store_call (ret (None, Some "XX000")).

(** [from('disasters').update({location_name, location: `POINT(lon lat)`})
    .eq('id', id).select()]: the text is a point when both coordinates
    are numbers, and is refused otherwise. *)
Definition disasters_update_location (id : N) (location_name : string)
    (lon lat : option json) : M (option disaster * option string) :=
  match lon, lat with
  | Some (JNum x), Some (JNum y) =>
      disasters_update id
        (Patch None None (Some location_name) None None (Some (x, y)))
  | _, _ => store_call (ret (None, Some "XX000"))
  end.

End RecordStore.
Export RecordStore.

(** ** socket.js *)

Module Socket.

Definition getSocketIO : M unit :=
  fun w => if w_io w then (Val tt, w) else (Throw SocketNotInitialized, w).

(** [io.emit(name, payload)] *)
Definition emit (ev : event) : M unit :=
  fun w => (Val tt, log (Emitted ev) w).

End Socket.
Export Socket.

(** ** api/disasters/disasterRoutes.js *)

Module DisasterRoutes.

Definition audit_entry (action userId : string) (now : Z) : json :=
  JObj [("action", JStr action); ("user_id", JStr userId);
        ("timestamp", JNum (inject_Z now))].

Definition addAuditEntry (currentAuditTrail : json) (action userId : string)
    : M json :=
  let* now := clock in
  let newEntry := audit_entry action userId now in
  ret (match currentAuditTrail with
       | JArr items => JArr (items ++ [newEntry])
       | _ => JArr [newEntry]
       end).

(** The fields a request body gives for a disaster; [f_others] are the
    other keys of the body. *)
Record disaster_fields := Fields {
  f_title : option string;
  f_location_name : option string;
  f_description : option string;
  f_tags : option (list string);
  f_others : list string
}.

(** [Object.keys(req.body).length] *)
Definition body_keys (b : disaster_fields) : nat :=
  (length (option_list (f_title b)) + length (option_list (f_location_name b))
   + length (option_list (f_description b)) + length (option_list (f_tags b))
   + length (f_others b))%nat.

(** [if (s) payload.k = s] *)
Definition given (f : option string) : option string :=
  if missing f then None else f.

(** POST /api/disasters *)
Definition post_disaster (x_user_id : option string) (b : disaster_fields)
    : M response :=
  guarded ["admin"; "contributor"] x_user_id (fun user =>
    let owner_id := u_id user in
    if missing (f_title b) || missing (f_location_name b)
       || missing (f_description b)
       || match f_tags b with None => true | Some tags => (length tags =? 0)%nat end
    then ret (Response 400 (Message "Missing required fields: title, location_name, description, tags."))
    else
      try_catch
        (let* audit_trail := addAuditEntry (JArr []) "create" owner_id in
         let* answer :=
           disasters_insert (default "" (f_title b))
             (default "" (f_location_name b)) (default "" (f_description b))
             (default [] (f_tags b)) owner_id audit_trail in
         let '(data, error) := answer in
         match error with
         | Some _ => ret (Response 500 (Message "Error creating disaster."))
         | None =>
             match data with
             | None => throw TypeError
             | Some newDisaster =>
                 let* _ := getSocketIO in
                 let* _ := emit (DisasterUpdated "created" (Some newDisaster)) in
                 ret (Response 201 (DisasterBody (Some newDisaster)))
             end
         end)
        (fun _ => ret (Response 500 (Message "Internal server error.")))).

(** PUT /api/disasters/:id *)
Definition put_disaster (x_user_id : option string) (id : N)
    (b : disaster_fields) : M response :=
  guarded ["admin"; "contributor"] x_user_id (fun user =>
    let updaterId := u_id user in
    if (body_keys b =? 0)%nat
    then ret (Response 400 (Message "No fields provided for update."))
    else
      try_catch
        (let* fetched := disasters_select_single id in
         let '(existing, fetchError) := fetched in
         match fetchError, existing with
         | Some code, _ =>
             if String.eqb code "PGRST116"
             then ret (Response 404 (Message "Disaster not found."))
             else ret (Response 500 (Message "Error checking disaster for update."))
         | None, None => throw TypeError
         | None, Some existingDisaster =>
             if has_role "admin" user
                || String.eqb (d_owner_id existingDisaster) updaterId
             then
               let currentAuditTrail :=
                 js_or (d_audit_trail existingDisaster) (JArr []) in
               let* updatedAuditTrail :=
                 addAuditEntry currentAuditTrail "update" updaterId in
               let updatePayload :=
                 Patch (Some updatedAuditTrail) (given (f_title b))
                       (given (f_location_name b)) (given (f_description b))
                       (f_tags b) None in
               let* answer := disasters_update id updatePayload in
               let '(data, error) := answer in
               match error with
               | Some _ => ret (Response 500 (Message "Error updating disaster."))
               | None =>
                   let updatedDisaster := data in
                   let* _ := getSocketIO in
                   let* _ := emit (DisasterUpdated "updated" updatedDisaster) in
                   ret (Response 200 (DisasterBody updatedDisaster))
               end
             else ret (Response 403 (Message "Forbidden: You do not have permission to update this disaster."))
         end)
        (fun _ => ret (Response 500 (Message "Internal server error.")))).

(** DELETE /api/disasters/:id *)
Definition delete_disaster (x_user_id : option string) (id : N) : M response :=
  guarded ["admin"; "contributor"] x_user_id (fun user =>
    let deleterId := u_id user in
    try_catch
      (let* fetched := disasters_select_single id in
       let '(existing, fetchError) := fetched in
       match fetchError, existing with
       | Some code, _ =>
           if String.eqb code "PGRST116"
           then ret (Response 404 (Message "Disaster not found."))
           else ret (Response 500 (Message "Error checking disaster for deletion."))
       | None, None => throw TypeError
       | None, Some existingDisaster =>
           if has_role "admin" user
              || String.eqb (d_owner_id existingDisaster) deleterId
           then
             let* answer := disasters_delete id in
             let '(_, error) := answer in
             match error with
             | Some _ => ret (Response 500 (Message "Error deleting disaster."))
             | None =>
                 let* _ := getSocketIO in
                 let* _ := emit (DisasterDeleted id) in
                 ret (Response 200 (Message "Disaster deleted successfully."))
             end
           else ret (Response 403 (Message "Forbidden: You do not have permission to delete this disaster."))
       end)
      (fun _ => ret (Response 500 (Message "Internal server error.")))).

End DisasterRoutes.
Export DisasterRoutes.

(** ** api/reports/reportRoutes.js *)

Module ReportRoutes.

(** POST /api/disasters/:disasterId/reports *)
Definition post_report (x_user_id : option string) (disasterId : N)
    (content image_url : option string) : M response :=
  guarded ["citizen"; "contributor"] x_user_id (fun user =>
    let user_id := u_id user in
    if missing content
    then ret (Response 400 (Message "Report content is required."))
    else
      try_catch
        (let* answer :=
           reports_insert disasterId user_id (default "" content) image_url
                          "pending" in
         let '(data, error) := answer in
         match error with
         | Some _ => ret (Response 500 (Message "Error submitting report."))
         | None =>
             match data with
             | None => throw TypeError
             | Some newReport =>
                 let* _ := getSocketIO in
                 let* _ := emit (ReportCreated disasterId newReport) in
                 ret (Response 201 (ReportBody newReport))
             end
         end)
        (fun _ => ret (Response 500 (Message "Internal server error while submitting report.")))).

End ReportRoutes.
Export ReportRoutes.

(** ** api/resources/resourceRoutes.js and [find_nearby_resources] *)

Module ResourceRoutes.

(** [!coords || typeof coords.lat === 'undefined' || typeof coords.lon === 'undefined'] *)
Definition unusable (coords : json) : bool :=
  negb (truthy coords) || prop_undefined "lat" coords
  || prop_undefined "lon" coords.

(** POST /api/disasters/:disasterId/resources *)
Definition post_resource (x_user_id : option string) (disasterId : N)
    (name location_name type : option string) : M response :=
  guarded ["admin"; "contributor"] x_user_id (fun user =>
    if missing name || missing location_name || missing type
    then ret (Response 400 (Message "Missing required fields: name, location_name, type."))
    else
      try_catch
        (let* coords := geocodeLocation (default "" location_name) in
         if unusable coords
         then ret (Response 400 (Message "Could not geocode the provided resource location."))
         else
           let* answer :=
             resources_insert disasterId (default "" name)
               (default "" location_name) (default "" type)
               (prop "lon" coords) (prop "lat" coords) in
           let '(data, error) := answer in
           match error with
           | Some _ => ret (Response 500 (Message "Error adding resource."))
           | None =>
               match data with
               | None => throw TypeError
               | Some newResource =>
                   let* _ := getSocketIO in
                   let* _ := emit (ResourcesUpdated "created" disasterId newResource) in
                   ret (Response 201 (ResourceBody newResource))
               end
           end)
        (fun _ => ret (Response 500 (Message "Internal server error while adding resource.")))).

(** A query parameter read through [parseFloat] or [parseInt]: absent,
    a text that is not read as a number, or the number read. *)
Inductive param (A : Type) : Type :=
  | Absent
  | NotANumber
  | Parsed (a : A).
Arguments Absent {A}.
Arguments NotANumber {A}.
Arguments Parsed {A} a.

Section Radius.

(** The geodesic distance in metres between two points, as PostGIS
    computes it on geographies; it belongs to the store. *)
Variable distance : point -> point -> Q.

(** [ST_DWithin(a, b, d)] *)
Definition ST_DWithin (a b : point) (d : Z) : bool :=
  Qle_bool (distance a b) (inject_Z d).

(** The stored procedure of supabase-schema.sql: a selection of
    [public.resources], with no ORDER BY. *)
Definition find_nearby_resources (disaster_id_param : N) (target_point : point)
    (max_distance_meters : Z) (resources : list resource) : list resource :=
  List.filter
    (fun r => N.eqb (rs_disaster_id r) disaster_id_param
              && ST_DWithin (rs_location r) target_point max_distance_meters)
    resources.

End Radius.

Section Listing.

(** [ORDER BY created_at DESC], as the store sorts the rows it selected;
    which of two rows created at the same instant comes first is the
    store's choice. *)
Variable newest_first : list resource -> list resource.

(** [from('resources').select('*').eq('disaster_id', disasterId)
    .order('created_at', {ascending: false})], with [.eq('type', type)]
    when a type is given. *)
Definition resources_select (disasterId : N) (type : option string)
    : M (option (list resource) * option string) :=
  store_call (fun w =>
    (Val (Some
       (newest_first
          (List.filter
             (fun r => N.eqb (rs_disaster_id r) disasterId
                       && match given type with
                          | Some t => String.eqb (rs_type r) t
                          | None => true
                          end)
             (w_resources w))), None), w)).

(** GET /api/disasters/:disasterId/resources. [lat] and [lon] are absent
    when the query has none or an empty one; [radius] is absent when the
    query has none, and is then 10000. With [lat] and [lon], after the
    validation, the route calls [rpc] on the query it has built from
    [from('resources')]: that object has no such method (it is the
    client that has one), the call throws a [TypeError] before anything
    is sent to the store, and the stored procedure is never reached. *)
Definition get_resources (disasterId : N) (lat lon : param Q)
    (radius : param Z) (type : option string) : M response :=
  try_catch
    (match lat, lon with
     | Absent, _ | _, Absent =>
         let* answer := resources_select disasterId type in
         let '(data, error) := answer in
         match error with
         | Some _ => ret (Response 500 (Message "Error fetching resources."))
         | None =>
             match data with
             | Some rows => ret (Response 200 (ResourceList rows))
             | None => throw TypeError
             end
         end
     | _, _ =>
         match lat, lon, match radius with Absent => Parsed 10000 | r => r end with
         | Parsed parsedLat, Parsed parsedLon, Parsed parsedRadius =>
             if parsedRadius <=? 0
             then ret (Response 400 (Message "Invalid latitude, longitude, or radius provided."))
             else throw TypeError
         | _, _, _ =>
             ret (Response 400 (Message "Invalid latitude, longitude, or radius provided."))
         end
     end)
    (fun _ => ret (Response 500 (Message "Internal server error while fetching resources."))).

End Listing.

End ResourceRoutes.
Export ResourceRoutes.

(** ** api/verification/verificationRoutes.js *)

Module VerificationRoutes.

(** POST /api/disasters/:disasterId/reports/:reportId/verify-image *)
Definition post_verify_image (x_user_id : option string)
    (disasterId reportId : N) (imageUrl : option string) : M response :=
  guarded ["admin"; "contributor"] x_user_id (fun user =>
    if missing imageUrl
    then ret (Response 400 (Message "Image URL is required for verification."))
    else
      try_catch
        (let* verificationResult := verifyImage (default "" imageUrl) in
         let* answer :=
           reports_update_status reportId disasterId
             (prop "status" verificationResult) in
         let '(data, error) := answer in
         match error with
         | Some _ => ret (Response 500 (Message "Error updating report verification status."))
         | None =>
             match data with
             | None => ret (Response 404 (Message "Report not found for image verification update."))
             | Some updatedReport =>
                 let* _ := getSocketIO in
                 let* _ := emit (ReportUpdated "verification_status_updated" updatedReport) in
                 ret (Response 200
                        (VerifiedReportBody updatedReport
                           (prop "message" verificationResult)))
             end
         end)
        (fun _ => ret (Response 500 (Message "Internal server error during image verification.")))).

End VerificationRoutes.
Export VerificationRoutes.

(** ** api/geocoding/geocodingRoutes.js *)

Module GeocodingRoutes.

(** POST /api/geocode *)
Definition post_geocode (x_user_id : option string) (disasterId : option N)
    (description : option string) : M response :=
  guarded ["admin"; "contributor"] x_user_id (fun user =>
    match disasterId with
    | Some id =>
      if missing description
      then ret (Response 400 (Message "Missing required fields: disasterId and description."))
      else
        try_catch
          (let* extractedLocationName :=
             extractLocationFromDescription (default "" description) in
           if negb (truthy extractedLocationName)
              || match extractedLocationName with
                 | JStr s => String.eqb s "Unknown Location"
                 | _ => false
                 end
           then ret (Response 400 (Message "Could not extract a valid location from the provided description."))
           else
             match extractedLocationName with
             | JStr name =>
                 let* coords := geocodeLocation name in
                 if unusable coords
                 then ret (Response 400 (Message "Could not geocode the extracted location."))
                 else
                   let* answer :=
                     disasters_update_location id name (prop "lon" coords)
                                               (prop "lat" coords) in
                   let '(data, error) := answer in
                   match error with
                   | Some _ => ret (Response 500 (Message "Error updating disaster with geocoded location."))
                   | None =>
                       match data with
                       | None => ret (Response 404 (Message "Disaster not found for updating geocoded location."))
                       | Some updatedDisaster =>
                           let* _ := getSocketIO in
                           let* _ := emit (DisasterUpdated "location_updated" (Some updatedDisaster)) in
                           ret (Response 200 (DisasterBody (Some updatedDisaster)))
                       end
                   end
             | _ => throw TypeError
             end)
          (fun _ => ret (Response 500 (Message "Internal server error during geocoding.")))
    | None => ret (Response 400 (Message "Missing required fields: disasterId and description."))
    end).

End GeocodingRoutes.
Export GeocodingRoutes.

(** ** The requests that change the store *)

Inductive request : Type :=
  | PostDisaster (x_user_id : option string) (b : disaster_fields)
  | PutDisaster (x_user_id : option string) (id : N) (b : disaster_fields)
  | DeleteDisasterById (x_user_id : option string) (id : N)
  | PostReport (x_user_id : option string) (disasterId : N)
               (content image_url : option string)
  | PostResource (x_user_id : option string) (disasterId : N)
                 (name location_name type : option string)
  | PostVerifyImage (x_user_id : option string) (disasterId reportId : N)
                    (imageUrl : option string)
  | PostGeocode (x_user_id : option string) (disasterId : option N)
                (description : option string).

Definition handle (r : request) : M response :=
  match r with
  | PostDisaster u b => post_disaster u b
  | PutDisaster u id b => put_disaster u id b
  | DeleteDisasterById u id => delete_disaster u id
  | PostReport u d c i => post_report u d c i
  | PostResource u d n l t => post_resource u d n l t
  | PostVerifyImage u d r i => post_verify_image u d r i
  | PostGeocode u d s => post_geocode u d s
  end.

(** A response of the 2xx class. *)
Definition succeeded (r : response) : bool :=
  (200 <=? status r) && (status r <? 300).

(** ** More of JavaScript's strings and arrays *)

Module JsMore.

(** [c.toLowerCase()] on a code unit below 256: the letters A to Z and the
    capital letters of the upper half (192 to 222, the multiplication sign
    215 apart) move 32 up. *)
Definition to_lower (c : ascii) : ascii :=
  let n := nat_of_ascii c in
  if ((65 <=? n)%nat && (n <=? 90)%nat)
     || ((192 <=? n)%nat && (n <=? 222)%nat && negb (n =? 215)%nat)
  then ascii_of_nat (n + 32)
  else c.

(** [s.toLowerCase()] *)
Fixpoint toLowerCase (s : string) : string :=
  match s with
  | EmptyString => EmptyString
  | String c rest => String (to_lower c) (toLowerCase rest)
  end.

(** The characters of a string, as [...s] yields them. *)
Fixpoint characters (s : string) : list json :=
  match s with
  | EmptyString => []
  | String c rest => JStr (String c EmptyString) :: characters rest
  end.

(** [...v] on a value that is not [null]: the items of an array, the
    characters of a string; any other value is not iterable ([None]: a
    TypeError). *)
Definition spread (v : json) : option (list json) :=
  match v with
  | JArr items => Some items
  | JStr s => Some (characters s)
  | _ => None
  end.

End JsMore.
Export JsMore.

(** A response whose body is the JSON value a service returned. *)
Record json_response := JsonResponse {
  js_status : Z;
  js_body : json
}.

(** ** services/socialMediaService.js *)

Module SocialMediaService.

Record social_post := SocialPost {
  sp_id : string;
  sp_disaster_id : string;
  sp_user : string;
  sp_content : string;
  sp_timestamp : Z
}.

(** The object of a post, as it is returned and cached. *)
Definition post_json (p : social_post) : json :=
  JObj [("id", JStr (sp_id p)); ("disaster_id", JStr (sp_disaster_id p));
        ("user", JStr (sp_user p)); ("content", JStr (sp_content p));
        ("timestamp", JNum (inject_Z (sp_timestamp p)))].

Section Loaded.

(** The instant at which the module was loaded: the mock data take their
    timestamps from it. *)
Variable loaded : Z.

Definition MOCK_SOCIAL_MEDIA_DATA : list social_post :=
  [ SocialPost "sm1" "sample_nyc_flood" "citizen1"
      "#NYCFlood Need food in Lower East Side. Urgent! #foodrelief" loaded;
    SocialPost "sm2" "sample_nyc_flood" "volunteer_grp"
      "Our team is mobilizing supplies for #NYCFlood victims. Contact us for help!"
      (loaded - 60000);
    SocialPost "sm3" "sample_japan_quake" "local_news"
      "Updates on #JapanEarthquake: Rescue efforts underway in Sendai."
      (loaded - 120000);
    SocialPost "sm4" "sample_nyc_flood" "citizen2"
      "Power is out in Manhattan. Any info on shelters? #floodalert"
      (loaded - 180000);
    SocialPost "sm5" "sample_nyc_flood" "reliefAdmin"
      "Shelter opening at 123 Main St, Manhattan. #NYCFlood #shelter"
      (loaded - 30000) ].

(** [post.disaster_id === disasterId &&
    post.content.toLowerCase().includes(query.toLowerCase())] *)
Definition post_matches (disasterId query : string) (p : social_post) : bool :=
  String.eqb (sp_disaster_id p) disasterId
  && includes (toLowerCase query) (toLowerCase (sp_content p)).

(** What the mock answers: the matching posts, or none when the draw of
    [Math.random()] is below 0.2. *)
Definition mock_social (random : Q) (disasterId query : string) : json :=
  let reports := List.filter (post_matches disasterId query) MOCK_SOCIAL_MEDIA_DATA in
  let reports := if negb (Qle_bool (2 # 10) random) then [] else reports in
  JArr (List.map post_json reports).

(** [fetchSocialMediaReports(disasterId, query = '')]; [random] is what
    [Math.random()] answers if the mock is called. *)
Definition fetchSocialMediaReports (random : Q) (disasterId : string)
    (query : option string) : M json :=
  let query := default "" query in
  let cacheKey := social_media_cacheKey disasterId query in
  let* cached := getCache cacheKey in
  if truthy cached then ret cached
  else
    let* _ := sleep 700 in
    let reports := mock_social random disasterId query in
    let* _ := setCache cacheKey reports CACHE_TTL_SECONDS in
    ret reports.

(** GET /api/disasters/:disasterId/social-media *)
Definition get_social_media (random : Q) (disasterId : string)
    (query : option string) : M json_response :=
  try_catch
    (let* reports := fetchSocialMediaReports random disasterId query in
     ret (JsonResponse 200 reports))
    (fun _ =>
       ret (JsonResponse 500
              (JObj [("message", JStr "Internal server error while fetching social media reports.")]))).

End Loaded.

End SocialMediaService.
Export SocialMediaService.

(** ** services/webScrapingService.js *)

Module WebScrapingService.

Definition official_update (id title content url : string) (published_at : Z)
    : json :=
  JObj [("id", JStr id); ("title", JStr title); ("content", JStr content);
        ("url", JStr url); ("published_at", JNum (inject_Z published_at))].

Section Loaded.

Variable loaded : Z.

Definition MOCK_OFFICIAL_UPDATES : list (string * json) :=
  [ ("fema",
     JArr [ official_update "fema1" "FEMA Update: NYC Flood Declaration"
              "President declares major disaster for New York. Federal aid available."
              "http://fema.gov/nyc-flood-update" loaded;
            official_update "fema2" "FEMA Guidance: Preparing for Earthquakes"
              "Tips on how to secure your home and prepare for seismic activity."
              "http://fema.gov/earthquake-prep" (loaded - 86400000) ]);
    ("redcross",
     JArr [ official_update "rc1" "Red Cross: Shelter Map for NYC"
              "Find open shelters and aid stations in impacted areas of NYC."
              "http://redcross.org/nyc-shelters" loaded;
            official_update "rc2" "Red Cross: Donate for Japan Relief"
              "Support victims of the recent earthquake in Japan."
              "http://redcross.org/japan-relief" (loaded - 172800000) ]) ].

(** [MOCK_OFFICIAL_UPDATES[source.toLowerCase()] || []] *)
Definition mock_updates (source : string) : json :=
  js_or (default JNull (index MOCK_OFFICIAL_UPDATES (toLowerCase source)))
        (JArr []).

Definition fetchOfficialUpdates (source : string) : M json :=
  let cacheKey := official_updates_cacheKey source in
  let* cached := getCache cacheKey in
  if truthy cached then ret cached
  else
    let* _ := sleep 1000 in
    let updates := mock_updates source in
    let* _ := setCache cacheKey updates CACHE_TTL_SECONDS in
    ret updates.

(** GET /api/disasters/:disasterId/official-updates *)
Definition get_official_updates (source : option string) : M json_response :=
  try_catch
    (let* updates :=
       if negb (missing source) then fetchOfficialUpdates (default "" source)
       else
         let* femaUpdates := fetchOfficialUpdates "fema" in
         let* redCrossUpdates := fetchOfficialUpdates "redcross" in
         match spread femaUpdates, spread redCrossUpdates with
         | Some f, Some r => ret (JArr (f ++ r))
         | _, _ => throw TypeError
         end in
     ret (JsonResponse 200 updates))
    (fun _ =>
       ret (JsonResponse 500
              (JObj [("message", JStr "Internal server error while fetching official updates.")]))).

End Loaded.

End WebScrapingService.
Export WebScrapingService.

(** ** The route that reads one disaster *)

Module DisasterReads.

(** GET /api/disasters/:id *)
Definition get_disaster (id : N) : M response :=
  try_catch
    (let* fetched := disasters_select_single id in
     let '(data, error) := fetched in
     match error with
     | Some code =>
         if String.eqb code "PGRST116"
         then ret (Response 404 (Message "Disaster not found."))
         else ret (Response 500 (Message "Error fetching disaster."))
     | None => ret (Response 200 (DisasterBody data))
     end)
    (fun _ => ret (Response 500 (Message "Internal server error."))).

End DisasterReads.
Export DisasterReads.

(** * The vocabulary of the properties *)

(** The world of a process that has just started as [app.js] starts it:
    empty tables, the socket initialised, no fault scheduled. *)
Definition boot (now : Z) : world := World now ∅ [] [] [] 1 true [] [].

(** The values the column [value] of the cache takes: any but [null],
    and but a function object, which JSON leaves out. *)
Definition storable (v : json) : bool :=
  match v with JFunction | JNull => false | _ => true end.

(** The part of the world that only the record store and the socket
    change: the three tables, the identifier supply, the socket and the
    history. *)
Definition records (w : world)
    : list disaster * list report * list resource * N * bool * list effect :=
  (w_disasters w, w_reports w, w_resources w, w_next_id w, w_io w, w_trace w).

(** A computation that returns normally and touches nothing but the
    cache, the clock and the fault schedule, of which it only consumes. *)
Definition quiet {A} (m : M A) : Prop :=
  ∀ w, ∃ a w', m w = (Val a, w') ∧ records w' = records w
               ∧ (w_faults w = [] → w_faults w' = []).

Definition unchanged_tables (w w' : world) : Prop :=
  w_disasters w' = w_disasters w ∧ w_reports w' = w_reports w
  ∧ w_resources w' = w_resources w.

(** The mutation and the event that belong to a request. *)
Definition announces (r : request) (op : store_op) (ev : event) : Prop :=
  match r with
  | PostDisaster _ _ =>
      ∃ d, ev = DisasterUpdated "created" (Some d)
           ∧ op = InsertDisaster (d_id d)
  | PutDisaster _ id _ =>
      ∃ d, ev = DisasterUpdated "updated" d ∧ op = UpdateDisaster id
  | DeleteDisasterById _ id =>
      ev = DisasterDeleted id ∧ op = DeleteDisaster id
  | PostReport _ disasterId _ _ =>
      ∃ rp, ev = ReportCreated disasterId rp ∧ op = InsertReport (rp_id rp)
  | PostResource _ disasterId _ _ _ =>
      ∃ rs, ev = ResourcesUpdated "created" disasterId rs
            ∧ op = InsertResource (rs_id rs)
  | PostVerifyImage _ _ reportId _ =>
      ∃ rp, ev = ReportUpdated "verification_status_updated" rp
            ∧ op = UpdateReport reportId
  | PostGeocode _ disasterId _ =>
      ∃ id d, disasterId = Some id
              ∧ ev = DisasterUpdated "location_updated" d
              ∧ op = UpdateDisaster id
  end.

(** What a request leaves in the history: after a response of the 2xx
    class, one applied mutation followed by one event; otherwise nothing,
    with the tables as they were. *)
Definition published_once (r : request) (w : world) (resp : response)
    (w' : world) : Prop :=
  if succeeded resp
  then ∃ op ev, w_trace w' = w_trace w ++ [Applied op; Emitted ev]
                ∧ announces r op ev
  else w_trace w' = w_trace w ∧ unchanged_tables w w'.

Definition publishes (r : request) (w : world)
    (res : outcome response * world) : Prop :=
  ∃ resp w', res = (Val resp, w') ∧ published_once r w resp w'.

(** The trail of the disaster [id], if the table has it. *)
Definition trail_of (id : N) (w : world) : option json :=
  d_audit_trail <$> find_disaster id (w_disasters w).

(** [addAuditEntry]'s array, given the entry. *)
Definition appended (trail entry : json) : json :=
  match trail with
  | JArr items => JArr (items ++ [entry])
  | _ => JArr [entry]
  end.



(** What [update({verification_status})] does to a row. *)
Definition restatus (reportId disasterId : N) (st : string) (r : report) : report :=
  if report_matches reportId disasterId r then set_status st r else r.

(** Every entry under the key of an image holds the answer of the mock
    for that image. *)
Definition image_cache_sound (w : world) : Prop :=
  ∀ url row,
    w_cache w !! image_cacheKey url = Some row → cr_value row = mock_verify url.

(** The normalisation of the specification: every maximal run of
    whitespace becomes a single space; the other characters, and their
    case, are kept. *)
Fixpoint collapse_whitespace (s : string) : string :=
  match s with
  | EmptyString => EmptyString
  | String c rest =>
      if is_space c then
        match rest with
        | String c' _ =>
            if is_space c' then collapse_whitespace rest
            else String " "%char (collapse_whitespace rest)
        | EmptyString => String " "%char EmptyString
        end
      else String c (collapse_whitespace rest)
  end.

(** What [replace(/\s/g, '_')] does to one character. *)
Definition underscore (c : ascii) : ascii := if is_space c then "_"%char else c.

(** Every trail of the table is an array. *)
Definition trails_are_arrays (w : world) : Prop :=
  Forall (λ d, ∃ items, d_audit_trail d = JArr items) (w_disasters w).

(** The worlds a running process goes through when every request is one
    of [request], its fields texts as the routes document them: started
    as [app.js] starts it, then serving such requests while time passes
    and the store fails as it pleases. *)
Inductive reachable : world → Prop :=
  | reachable_boot now : reachable (boot now)
  | reachable_handle r w : reachable w → reachable (snd (handle r w))
  | reachable_clock t w : reachable w → reachable (set_now t w)
  | reachable_faults fs w : reachable w → reachable (set_faults fs w).

Section RadiusClaim.

(** The distance of the store, as in [Radius]. *)
Variable distance : point → point → Q.

(** Within the radius, for the disaster: the rows the specification
    expects in the answer. *)
Definition in_radius (d : N) (c : point) (R : Z) (r : resource) : Prop :=
  rs_disaster_id r = d ∧ (distance (rs_location r) c <= inject_Z R)%Q.

(** The order the specification asks for: nearer first, the earlier
    created first among rows at the same distance. *)
Definition nearer (c : point) (r1 r2 : resource) : Prop :=
  (distance (rs_location r1) c < distance (rs_location r2) c)%Q
  ∨ ((distance (rs_location r1) c == distance (rs_location r2) c)%Q
     ∧ rs_created_at r1 ≤ rs_created_at r2).

(** The specification of a radius query over [table] answering
    [result]. *)
Definition radius_query_claim (d : N) (c : point) (R : Z)
    (table result : list resource) : Prop :=
  (∀ r, In r result ↔ In r table ∧ in_radius d c R r)
  ∧ StronglySorted (nearer c) result.

End RadiusClaim.

(** ** The worlds and requests of the scenarios *)

Definition nyc_flood : disaster_fields :=
  Fields (Some "NYC Flood") (Some "Manhattan")
         (Some "Heavy flooding in Manhattan") (Some ["flood"]) [].

(** One disaster, created by netrunnerX at instant 1000. *)
Definition flood_world : world :=
  snd (handle (PostDisaster (Some "netrunnerX") nyc_flood) (boot 1000)).

(** A request for a shelter of that disaster: the store refuses the row,
    and the geocoding of the location stays in the cache. *)
Definition ask_shelter (location_name : string) (w : world) : world :=
  snd (handle (PostResource (Some "netrunnerX") 1 (Some "Shelter")
                 (Some location_name) (Some "shelter")) w).

(** Three shelters of that disaster as the table holds them, put there
    by other means than this program, which stores none: in Manhattan, at
    (0, 0), in Manhattan; longitude first. *)
Definition shelter_rows : list resource :=
  [ Resource 2 1 "Shelter" "Manhattan, NYC" (-739712 # 10000, 407831 # 10000)%Q
      "shelter" 1300;
    Resource 3 1 "Shelter" "Atlantis" (0, 0)%Q "shelter" 1600;
    Resource 4 1 "Shelter" "Manhattan, NYC" (-739712 # 10000, 407831 # 10000)%Q
      "shelter" 1900 ].

(** A distance for the scenarios, standing in for the store's: 111320 m
    per degree of longitude and of latitude, added. The scenarios use only
    that a point is at distance 0 from itself and Manhattan at a positive
    distance from (0, 0). *)
Definition grid_distance (a b : point) : Q :=
  (111320 * (Qabs (fst a - fst b) + Qabs (snd a - snd b)))%Q.

(** The specification of a mutation that affects a disaster: the old
    trail with one entry appended. *)
Definition trail_extended (old new : option json) : Prop :=
  ∃ items entry, old = Some (JArr items) ∧ new = Some (JArr (items ++ [entry])).

Definition report_request : request :=
  PostReport (Some "citizen1") 1 (Some "Need food in Lower East Side") None.

Definition resource_request : request :=
  PostResource (Some "netrunnerX") 1 (Some "Red Cross Shelter")
               (Some "Lower East Side, NYC") (Some "shelter").

(** The response of a run, and its status. *)
Definition response_of (run : outcome response * world) : response :=
  match fst run with
  | Val r => r
  | Throw _ => Response 0 (Message "")
  end.

Definition answered (run : outcome response * world) : option Z :=
  match fst run with
  | Val r => Some (status r)
  | Throw _ => None
  end.

Definition update_request : request :=
  PutDisaster (Some "netrunnerX") 1
    (Fields None None (Some "Water is rising") None []).

Definition netrunnerX : user :=
  User "netrunnerX" "netrunnerX" ["admin"; "contributor"].

(** The world after a request for a shelter in Manhattan: its geocoding
    is cached until instant 3601300. *)
Definition manhattan_world : world := ask_shelter "Manhattan, NYC" flood_world.

(** A report on the flood, then verified with an image the mock takes
    for authentic. *)
Definition reported_world : world :=
  snd (handle report_request (set_now 5000 flood_world)).

Definition verified_world : world :=
  snd (handle (PostVerifyImage (Some "netrunnerX") 1 2
                 (Some "http://img.example/authentic-1.png")) reported_world).


(** "NYC", a tab, "Flood". *)
Definition nyc_tab_flood : string := "NYC" +:+ String (ascii_of_nat 9) "Flood".

(** ** The vocabulary of the further properties *)

(** The pattern the five services share: consult the cache; on a miss
    wait for the provider, store its answer and return it. *)
Definition cached_call (key : string) (delay : Z) (answer : json) : M json :=
  let* cached := getCache key in
  if truthy cached then ret cached
  else
    let* _ := sleep delay in
    let* _ := setCache key answer CACHE_TTL_SECONDS in
    ret answer.

(** No entry of the key that a read would return: none at all, an expired
    one, or one whose value is falsy. *)
Definition no_live_entry (key : string) (w : world) : Prop :=
  ∀ row, w_cache w !! key = Some row →
         cr_expires_at row ≤ w_now w ∨ truthy (cr_value row) = false.


(** The [x-user-id] header of a request. *)
Definition header (r : request) : option string :=
  match r with
  | PostDisaster u _ | PutDisaster u _ _ | DeleteDisasterById u _
  | PostReport u _ _ _ | PostResource u _ _ _ _ | PostVerifyImage u _ _ _
  | PostGeocode u _ _ => u
  end.

(** The roles its route gives to [authorize]. *)
Definition allowed_roles (r : request) : list string :=
  match r with
  | PostReport _ _ _ _ => ["citizen"; "contributor"]
  | _ => ["admin"; "contributor"]
  end.

(** The two middlewares let the request through. *)
Definition allowed (r : request) : bool :=
  match authenticate (header r) with
  | inl _ => false
  | inr user =>
      match authorize (allowed_roles r) user with
      | Some _ => false
      | None => true
      end
  end.

(** What an update makes of a text column: the field of the body when it
    is given and not empty, the stored text otherwise. *)
Definition kept_or_given (old : string) (f : option string) : string :=
  if missing f then old else default old f.

(** What one request does to the tables and to the identifier supply: the
    tables and the supply after it, given the world before it. *)
Inductive mutation (w : world)
    : list disaster → list report → list resource → N → Prop :=
  | keeps :
      mutation w (w_disasters w) (w_reports w) (w_resources w) (w_next_id w)
  | inserts_disaster d :
      d_id d = w_next_id w →
      (∃ entry, d_audit_trail d = JArr [entry]) →
      mutation w (w_disasters w ++ [d]) (w_reports w) (w_resources w)
               (N.succ (w_next_id w))
  | patches id p d :
      find_disaster id (w_disasters w) = Some d →
      from_option
        (λ t, ∃ entry,
           t = appended (js_or (d_audit_trail d) (JArr [])) entry)
        True (p_audit_trail p) →
      mutation w (patch_table id p (w_disasters w)) (w_reports w)
               (w_resources w) (w_next_id w)
  | deletes id :
      mutation w
        (List.filter (λ d, negb (N.eqb (d_id d) id)) (w_disasters w))
        (List.filter (λ r, negb (N.eqb (rp_disaster_id r) id)) (w_reports w))
        (List.filter (λ r, negb (N.eqb (rs_disaster_id r) id)) (w_resources w))
        (w_next_id w)
  | inserts_report r :
      rp_id r = w_next_id w →
      is_Some (find_disaster (rp_disaster_id r) (w_disasters w)) →
      mutation w (w_disasters w) (w_reports w ++ [r]) (w_resources w)
               (N.succ (w_next_id w))
  | restatuses reportId disasterId st :
      mutation w (w_disasters w)
               (List.map (restatus reportId disasterId st) (w_reports w))
               (w_resources w) (w_next_id w).



(** ** The worlds and requests of the further scenarios *)

(** The row of the flood in [flood_world]. *)
Definition flood_row : disaster :=
  Disaster 1 "NYC Flood" "Manhattan" None "Heavy flooding in Manhattan"
    ["flood"] "netrunnerX" 1000 (JArr [audit_entry "create" "netrunnerX" 1000]).

(** The flood with its report and the three shelters. *)
Definition relief_world : world :=
  World (w_now reported_world) (w_cache reported_world)
        (w_disasters reported_world) (w_reports reported_world) shelter_rows
        5 (w_io reported_world) [] (w_trace reported_world).

Definition volunteerA : user := User "volunteerA" "volunteerA" ["contributor"].

Definition delete_request : request := DeleteDisasterById (Some "netrunnerX") 1.

(** An update of the flood by a contributor who does not own it. *)
Definition foreign_update_request : request :=
  PutDisaster (Some "volunteerA") 1
    (Fields None None (Some "Water is rising") None []).

Definition geocode_request : request :=
  PostGeocode (Some "netrunnerX") (Some 1%N) (Some "NYC Flood near the river").

(** * Properties *)

(** ** The cache: expiry, overwriting, absorbed failures *)

Section CacheProperties.

Implicit Types (w : world) (key : string) (v : json).

Lemma getCache_unfold key w :
  getCache key w =
  let w1 := set_faults (tl (w_faults w)) w in
  match hd NoFault (w_faults w) with
  | NoFault =>
      match w_cache w !! key with
      | None => (Val JNull, w1)
      | Some row =>
          if cr_expires_at row >? w_now w then (Val (cr_value row), w1)
          else (Val JNull, snd (cache_delete key w1))
      end
  | _ => (Val JNull, w1)
  end.
Proof.
  unfold getCache, try_catch, bind, cache_select, next_fault, clock, ret, throw.
  cbn.
  destruct (hd NoFault (w_faults w)) as [|code|] eqn:Hf; cbn.
  - destruct (w_cache w !! key) as [row|] eqn:Hrow; cbn; [|done].
    destruct (cr_expires_at row >? w_now w); [done|].
    unfold cache_delete, bind, next_fault, ret, throw; cbn.
    by destruct (hd NoFault (tl (w_faults w))).
  - by destruct (negb (String.eqb code "PGRST116")).
  - done.
Qed.

Lemma setCache_unfold key v ttl w :
  setCache key v ttl w =
  let expiresAt := w_now w + ttl * 1000 in
  let w1 := set_faults (tl (w_faults w)) w in
  if valid_date expiresAt then
    match hd NoFault (w_faults w) with
    | NoFault =>
        if storable v && timestamptz_reads expiresAt
        then (Val tt,
              set_cache (<[key := CacheRow (as_json v) expiresAt]> (w_cache w)) w1)
        else (Val tt, w1)
    | _ => (Val tt, w1)
    end
  else (Val tt, w).
Proof.
  unfold setCache, try_catch, bind, cache_upsert, next_fault, clock, ret, throw.
  cbn.
  destruct (valid_date (w_now w + ttl * 1000)); cbn; [|done].
  destruct (hd NoFault (w_faults w)); cbn; [|done..].
  by destruct v, (timestamptz_reads (w_now w + ttl * 1000)).
Qed.


(** A cache call never throws, whatever the store answers. *)
Lemma getCache_returns key w : ∃ r w', getCache key w = (Val r, w').
Proof.
  rewrite getCache_unfold; cbn.
  destruct (hd NoFault (w_faults w)); eauto.
  destruct (w_cache w !! key) as [row|]; eauto.
  destruct (cr_expires_at row >? w_now w); eauto.
Qed.

Lemma setCache_returns key v ttl w : ∃ w', setCache key v ttl w = (Val tt, w').
Proof.
  rewrite setCache_unfold; cbn.
  destruct (valid_date _); eauto.
  destruct (hd NoFault (w_faults w)); eauto.
  destruct (storable v && _); eauto.
Qed.

(** C4. For a key with a stored value [v] and expiry [e], and a store that
    answers the lookup: [getCache] strictly before [e] returns [v]
    unchanged and leaves the entry in place; [getCache] at or after [e]
    returns null, never the expired value. *)
Theorem getCache_checks_expiry key v e w :
  w_cache w !! key = Some (CacheRow v e) →
  hd NoFault (w_faults w) = NoFault →
  (w_now w < e →
     getCache key w = (Val v, set_faults (tl (w_faults w)) w)) ∧
  (e ≤ w_now w → ∃ w', getCache key w = (Val JNull, w')).
Proof.
  intros Hrow Hf. rewrite getCache_unfold, Hf, Hrow; cbn. split; intros Ht.
  - by rewrite (proj2 (Z.gtb_lt e (w_now w)) Ht).
  - destruct (e >? w_now w) eqn:Hgt; [|eauto].
    apply Z.gtb_lt in Hgt. lia.
Qed.


(** C10. [getCache] and [setCache] return normally in every world,
    whatever the store answers. When the store answers the call with an
    error or throws, [getCache] returns null and [setCache] returns with
    the cache as it was. *)
Theorem cache_calls_absorb_failures key v ttl w :
  (∃ r w', getCache key w = (Val r, w')) ∧
  (∃ w', setCache key v ttl w = (Val tt, w')) ∧
  (hd NoFault (w_faults w) ≠ NoFault →
     getCache key w = (Val JNull, set_faults (tl (w_faults w)) w) ∧
     ∃ w', setCache key v ttl w = (Val tt, w') ∧ w_cache w' = w_cache w).
Proof.
  split; [apply getCache_returns|]. split; [apply setCache_returns|].
  intros Hf. split.
  - rewrite getCache_unfold; cbn. by destruct (hd NoFault (w_faults w)).
  - rewrite setCache_unfold; cbn.
    destruct (valid_date _); [|eauto].
    destruct (hd NoFault (w_faults w)); [done|eauto..].
Qed.

End CacheProperties.

(** ** What the services leave alone *)

Section Quiet.

Lemma quiet_ret {A} (a : A) : quiet (ret a).
Proof. intros w. by exists a, w. Qed.

Lemma quiet_bind {A B} (m : M A) (k : A → M B) :
  quiet m → (∀ a, quiet (k a)) → quiet (bind m k).
Proof.
  intros Hm Hk w. destruct (Hm w) as (a & w1 & E & R & F).
  destruct (Hk a w1) as (b & w2 & E2 & R2 & F2).
  exists b, w2. unfold bind. rewrite E. split; [done|]. split; [congruence|auto].
Qed.

Lemma quiet_if {A} (c : bool) (m1 m2 : M A) :
  quiet m1 → quiet m2 → quiet (if c then m1 else m2).
Proof. by destruct c. Qed.

Lemma quiet_sleep ms : quiet (sleep ms).
Proof. intros w. by eexists tt, _. Qed.

Lemma quiet_getCache key : quiet (getCache key).
Proof.
  intros w. rewrite getCache_unfold; cbn.
  assert (Htl : w_faults w = [] → tl (w_faults w) = []) by (by intros ->).
  destruct (hd NoFault (w_faults w)); [|by eauto 10..].
  destruct (w_cache w !! key) as [row|]; [|by eauto 10].
  destruct (cr_expires_at row >? w_now w); [by eauto 10|].
  eexists _, _. split; [done|].
  unfold cache_delete, bind, next_fault, ret, throw; cbn.
  destruct (hd NoFault (tl (w_faults w))); cbn; (split; [done|]);
    intros ->%Htl; by rewrite ?Htl.
Qed.

Lemma quiet_setCache key v ttl : quiet (setCache key v ttl).
Proof.
  intros w. rewrite setCache_unfold; cbn.
  assert (Htl : w_faults w = [] → tl (w_faults w) = []) by (by intros ->).
  destruct (valid_date _); [|by eauto 10].
  destruct (hd NoFault (w_faults w)); [|by eauto 10..].
  destruct (storable v && _); by eauto 10.
Qed.

Lemma quiet_geocodeLocation name : quiet (geocodeLocation name).
Proof.
  unfold geocodeLocation.
  apply quiet_bind; [apply quiet_getCache|]. intros cached.
  apply quiet_if; [apply quiet_ret|].
  apply quiet_bind; [apply quiet_sleep|]. intros _.
  apply quiet_bind; [apply quiet_setCache|]. intros _. apply quiet_ret.
Qed.

Lemma quiet_extractLocation description :
  quiet (extractLocationFromDescription description).
Proof.
  unfold extractLocationFromDescription.
  apply quiet_bind; [apply quiet_getCache|]. intros cached.
  apply quiet_if; [apply quiet_ret|].
  apply quiet_bind; [apply quiet_sleep|]. intros _.
  apply quiet_bind; [apply quiet_setCache|]. intros _. apply quiet_ret.
Qed.

Lemma quiet_verifyImage imageUrl : quiet (verifyImage imageUrl).
Proof.
  unfold verifyImage.
  apply quiet_bind; [apply quiet_getCache|]. intros cached.
  apply quiet_if; [apply quiet_ret|].
  apply quiet_bind; [apply quiet_sleep|]. intros _.
  apply quiet_bind; [apply quiet_setCache|]. intros _. apply quiet_ret.
Qed.

(** Running a quiet computation in front of a continuation. *)
Lemma bind_quiet {A B} (m : M A) (k : A → M B) w :
  quiet m →
  ∃ a w1, m w = (Val a, w1) ∧ records w1 = records w
          ∧ (w_faults w = [] → w_faults w1 = []) ∧ bind m k w = k a w1.
Proof.
  intros Hm. destruct (Hm w) as (a & w1 & E & R & F). exists a, w1.
  repeat split; try done. unfold bind. by rewrite E.
Qed.

End Quiet.

(** ** Reasoning about a route: its refusals, then its branches *)

Lemma authenticate_refuses u r : authenticate u = inl r → succeeded r = false.
Proof.
  unfold authenticate. destruct (missing u); [by intros [= <-]|].
  destruct (List.find _ _); [done|by intros [= <-]].
Qed.

Lemma authorize_refuses roles u r :
  authorize roles u = Some r → succeeded r = false.
Proof. unfold authorize. destruct (existsb _ _); [done|by intros [= <-]]. Qed.

(** A guarded route either refuses, leaving the world alone, or runs its
    handler for an authenticated and authorised user. *)
Lemma guarded_cases roles u (h : user → M response) w
    (P : outcome response * world → Prop) :
  (∀ r, succeeded r = false → P (Val r, w)) →
  (∀ user, authenticate u = inr user → authorize roles user = None →
           P (h user w)) →
  P (guarded roles u h w).
Proof.
  intros Hr Hh. unfold guarded.
  destruct (authenticate u) as [r|user] eqn:Ha.
  - apply Hr. by eapply authenticate_refuses.
  - destruct (authorize roles user) as [r|] eqn:Hz.
    + apply Hr. by eapply authorize_refuses.
    + by apply Hh.
Qed.

Ltac unfold_m :=
  unfold try_catch, bind, ret, throw, store_call, next_fault, clock,
    sleep, getSocketIO, emit, log, set_tables in *.

(** Case analysis on the innermost scrutinee of the goal. *)
Ltac branch :=
  match goal with
  | |- context [match ?x with _ => _ end] =>
      lazymatch x with
      | context [match _ with _ => _ end] => fail
      | _ => destruct x eqn:?
      end
  end.

(** Run the service in front of the route's continuation. *)
Ltac quiet_step lem :=
  match goal with
  | |- context [bind ?m ?k ?w] =>
      let a := fresh "a" in
      let w1 := fresh "w" in
      let E := fresh "Hrun" in
      let R := fresh "R" in
      let F := fresh "Hfaults" in
      let B := fresh "B" in
      destruct (bind_quiet m k w ltac:(apply lem)) as (a & w1 & E & R & F & B);
      rewrite B; clear B;
      injection R as ? ? ? ? ? ?
  end.

(** Bring the fields of the world after a service back to the world
    before it. *)
Ltac frame :=
  repeat match goal with
         | H : ?f ?w0 = ?f ?w |- context [?f ?w0] => rewrite H
         end.

Ltac finish :=
  cbn in *; simplify_eq; try congruence;
  try (eexists _, _; split; [done|]; cbn);
  frame; rewrite <- ?app_assoc; cbn; eauto 10.

(** ** Publication of mutation events *)

Section Publication.

(** A world in which the socket is initialised, as [app.js] initialises it
    before the server listens. *)
Variable w : world.
Hypothesis socket_initialised : w_io w = true.

Lemma publishes_refusal r resp :
  succeeded resp = false → publishes r w (Val resp, w).
Proof.
  intros H. exists resp, w. split; [done|].
  unfold published_once, unchanged_tables. by rewrite H.
Qed.

Lemma post_disaster_publishes u b :
  publishes (PostDisaster u b) w (post_disaster u b w).
Proof.
  pose proof socket_initialised as Hio. unfold post_disaster.
  apply guarded_cases; [apply publishes_refusal|]. intros user _ _.
  unfold addAuditEntry, disasters_insert, publishes, published_once,
    unchanged_tables, announces.
  unfold_m. repeat (cbn; branch); finish.
Qed.

Lemma put_disaster_publishes u id b :
  publishes (PutDisaster u id b) w (put_disaster u id b w).
Proof.
  pose proof socket_initialised as Hio. unfold put_disaster.
  apply guarded_cases; [apply publishes_refusal|]. intros user _ _.
  unfold addAuditEntry, disasters_select_single, disasters_update,
    find_disaster, publishes, published_once, unchanged_tables, announces.
  unfold_m. repeat (cbn; branch); finish.
Qed.

Lemma delete_disaster_publishes u id :
  publishes (DeleteDisasterById u id) w (delete_disaster u id w).
Proof.
  pose proof socket_initialised as Hio. unfold delete_disaster.
  apply guarded_cases; [apply publishes_refusal|]. intros user _ _.
  unfold disasters_select_single, disasters_delete, find_disaster,
    publishes, published_once, unchanged_tables, announces.
  unfold_m. repeat (cbn; branch); finish.
Qed.

Lemma post_report_publishes u d c i :
  publishes (PostReport u d c i) w (post_report u d c i w).
Proof.
  pose proof socket_initialised as Hio. unfold post_report.
  apply guarded_cases; [apply publishes_refusal|]. intros user _ _.
  unfold reports_insert, publishes, published_once, unchanged_tables, announces.
  unfold_m. repeat (cbn; branch); finish.
Qed.

Lemma post_resource_publishes u d n l t :
  publishes (PostResource u d n l t) w (post_resource u d n l t w).
Proof.
  pose proof socket_initialised as Hio. unfold post_resource.
  apply guarded_cases; [apply publishes_refusal|]. intros user _ _.
  destruct (_ || _); [by apply publishes_refusal|].
  unfold try_catch. quiet_step quiet_geocodeLocation.
  unfold resources_insert, find_disaster, publishes, published_once,
    unchanged_tables, announces.
  unfold_m. repeat (cbn; branch); finish.
Qed.

Lemma post_verify_image_publishes u d r i :
  publishes (PostVerifyImage u d r i) w (post_verify_image u d r i w).
Proof.
  pose proof socket_initialised as Hio. unfold post_verify_image.
  apply guarded_cases; [apply publishes_refusal|]. intros user _ _.
  destruct (missing i); [by apply publishes_refusal|].
  unfold try_catch. quiet_step quiet_verifyImage.
  unfold reports_update_status, publishes, published_once, unchanged_tables,
    announces.
  unfold_m. repeat (cbn; branch); finish.
Qed.

Lemma post_geocode_publishes u d s :
  publishes (PostGeocode u d s) w (post_geocode u d s w).
Proof.
  pose proof socket_initialised as Hio. unfold post_geocode.
  apply guarded_cases; [apply publishes_refusal|]. intros user _ _.
  destruct d as [id|]; [|by apply publishes_refusal].
  destruct (missing s); [by apply publishes_refusal|].
  unfold try_catch. quiet_step quiet_extractLocation.
  destruct (_ || _).
  { unfold ret, publishes, published_once, unchanged_tables. finish. }
  destruct a as [| | |name| | |];
    try (unfold throw, ret, publishes, published_once, unchanged_tables;
         by finish).
  quiet_step quiet_geocodeLocation.
  unfold disasters_update_location, disasters_update, find_disaster, publishes,
    published_once, unchanged_tables, announces.
  unfold_m. repeat (cbn; branch); finish.
Qed.

(** C6. With the socket initialised, as [app.js] does before it listens,
    every mutation request returns a response, and: after a response of
    the 2xx class the history has grown by exactly the applied mutation
    followed by exactly one event, the event of that mutation; after any
    other response (validation, authorisation, not found, store error)
    the history and the three tables are as they were: nothing was
    published. *)
Theorem one_event_per_successful_mutation r :
  ∃ resp w', handle r w = (Val resp, w') ∧ published_once r w resp w'.
Proof.
  destruct r; cbn.
  - apply post_disaster_publishes.
  - apply put_disaster_publishes.
  - apply delete_disaster_publishes.
  - apply post_report_publishes.
  - apply post_resource_publishes.
  - apply post_verify_image_publishes.
  - apply post_geocode_publishes.
Qed.

End Publication.

(** ** The audit trail *)

#[local] Arguments find_disaster : simpl never.
#[local] Arguments patch_table : simpl never.
#[local] Arguments js_or : simpl never.
#[local] Arguments addAuditEntry : simpl never.

Section AuditTrail.

Lemma addAuditEntry_run trail action userId w :
  addAuditEntry trail action userId w
  = (Val (appended trail (audit_entry action userId (w_now w))), w).
Proof. done. Qed.

Lemma find_patch_same id p ds :
  find_disaster id (patch_table id p ds) = apply_patch p <$> find_disaster id ds.
Proof.
  unfold find_disaster, patch_table.
  induction ds as [|d ds IH]; [done|]. cbn.
  destruct (N.eqb (d_id d) id) eqn:E; cbn; rewrite E; [done|apply IH].
Qed.

Lemma find_patch_other id j p ds :
  j ≠ id → find_disaster j (patch_table id p ds) = find_disaster j ds.
Proof.
  intros Hne. unfold find_disaster, patch_table.
  induction ds as [|d ds IH]; [done|]. cbn.
  destruct (N.eqb (d_id d) id) eqn:E; cbn.
  - apply N.eqb_eq in E. rewrite E.
    destruct (N.eqb id j) eqn:E2; [apply N.eqb_eq in E2; congruence|apply IH].
  - destruct (N.eqb (d_id d) j); [done|apply IH].
Qed.

(** C1, as amended. After a successful request: creating a disaster adds
    one row, whose trail is the single entry {create, the creator, now};
    updating a disaster whose trail is an array turns that trail into the
    same array with the one entry {update, the updater, now} appended, and
    leaves the trail of every other disaster as it was; creating a report
    leaves the disasters table, hence every trail, as it was. *)
Theorem direct_mutations_append_to_trail r w resp w' :
  handle r w = (Val resp, w') →
  succeeded resp = true →
  match r with
  | PostDisaster u b =>
      ∃ user d, authenticate u = inr user
        ∧ w_disasters w' = w_disasters w ++ [d]
        ∧ d_audit_trail d = JArr [audit_entry "create" (u_id user) (w_now w)]
  | PutDisaster u id b =>
      ∃ user d, authenticate u = inr user
        ∧ find_disaster id (w_disasters w) = Some d
        ∧ (∀ items, d_audit_trail d = JArr items →
             trail_of id w'
             = Some (JArr (items ++ [audit_entry "update" (u_id user) (w_now w)])))
        ∧ (∀ j, j ≠ id → trail_of j w' = trail_of j w)
  | PostReport _ _ _ _ => w_disasters w' = w_disasters w
  | _ => True
  end.
Proof.
  destruct r; cbn; try done.
  - unfold post_disaster. apply guarded_cases; [congruence|].
    intros user Hu _.
    unfold addAuditEntry, disasters_insert. unfold_m.
    repeat (cbn; branch); intros; simplify_eq/=; eauto 10.
  - unfold put_disaster. apply guarded_cases; [congruence|].
    intros user Hu _.
    unfold disasters_select_single, disasters_update, trail_of. unfold_m.
    repeat (cbn; branch); intros. 
    all: cbn in *; rewrite ?addAuditEntry_run in *; simplify_eq; cbn in *;
      try congruence.
    all: repeat match goal with
                | H1 : ?x = Some ?a, H2 : ?x = Some ?b |- _ =>
                    rewrite H1 in H2; injection H2 as <-
                end.
    all: eexists _, _; split; [done|]; split; [done|]; split;
      [intros items Hitems|intros j Hj]; cbn;
      rewrite ?find_patch_same, ?find_patch_other by done; try done.
    all: match goal with H : find_disaster _ _ = Some _ |- _ => rewrite H end;
      cbn; rewrite Hitems; reflexivity.
  - unfold post_report. apply guarded_cases; [congruence|].
    intros user Hu _. unfold reports_insert. unfold_m.
    repeat (cbn; branch); intros; simplify_eq/=; eauto 10.
Qed.
End AuditTrail.

(** ** Resources and geocoding *)

Section ResourceCreation.

(** C3. For an authorised request whose location name geocodes to
    [coords]: when [coords] is no usable point the answer is 400, no
    resource is stored and nothing enters the history; and whenever the
    resources table changes, [coords] was usable and the one new row sits
    at the point ([lon], [lat]) of [coords]. *)
Theorem resource_requires_usable_coords u user d n l t w coords w1 :
  authenticate u = inr user →
  authorize ["admin"; "contributor"] user = None →
  geocodeLocation (default "" l) w = (Val coords, w1) →
  ∃ resp w',
    post_resource u d n l t w = (Val resp, w')
    ∧ (unusable coords = true →
         status resp = 400 ∧ w_resources w' = w_resources w
         ∧ w_trace w' = w_trace w)
    ∧ (w_resources w' ≠ w_resources w →
         unusable coords = false
         ∧ ∃ r lon lat,
             w_resources w' = w_resources w ++ [r]
             ∧ prop "lon" coords = Some (JNum lon)
             ∧ prop "lat" coords = Some (JNum lat)
             ∧ rs_location r = (lon, lat)).
Proof.
  intros Hu Hz Hgeo. unfold post_resource, guarded. rewrite Hu, Hz.
  destruct (_ || _).
  { eexists _, _. split; [done|]. split; [done|]. by intros []. }
  unfold try_catch, bind at 1. rewrite Hgeo.
  destruct (quiet_geocodeLocation (default "" l) w) as (? & ? & E & R & _).
  rewrite Hgeo in E. injection E as <- <-. injection R as ? ? ? ? ? ?.
  unfold resources_insert. unfold_m.
  repeat (cbn; branch).
  all: eexists _, _; (split; [done|]); cbn; split; try done; try congruence.
  all: intros _; split; [done|]; frame; eauto 10.
Qed.
End ResourceCreation.

(** ** The verification status of a report *)

Section Verification.



Lemma in_restatus_same reportId disasterId st rp l :
  In rp (List.map (restatus reportId disasterId st) l) →
  report_matches reportId disasterId rp = true →
  rp_verification_status rp = st.
Proof.
  intros [x [<- Hx]]%in_map_iff. unfold restatus.
  destruct (report_matches reportId disasterId x) eqn:E; [done|congruence].
Qed.

Lemma restatus_found reportId disasterId st r l :
  List.find (report_matches reportId disasterId) l = Some r →
  In (set_status st r) (List.map (restatus reportId disasterId st) l)
  ∧ report_matches reportId disasterId (set_status st r) = true.
Proof.
  intros [Hin Hm]%find_some. split; [|done].
  apply in_map_iff. exists r. split; [|done]. unfold restatus. by rewrite Hm.
Qed.

End Verification.

(** ** Image verification through the cache *)

Section ImageVerification.

Lemma image_cacheKey_inj a b : image_cacheKey a = image_cacheKey b → a = b.
Proof. unfold image_cacheKey. cbn. by intros [=]. Qed.

Lemma geocode_key_not_image name url : geocode_cacheKey name ≠ image_cacheKey url.
Proof. unfold geocode_cacheKey, image_cacheKey. cbn. discriminate. Qed.

Lemma location_key_not_image description url :
  location_cacheKey description ≠ image_cacheKey url.
Proof. unfold location_cacheKey, image_cacheKey. cbn. discriminate. Qed.

Lemma truthy_mock_verify url : truthy (mock_verify url) = true.
Proof.
  unfold mock_verify.
  destruct (includes "authentic" url); [done|].
  by destruct (includes "manipulated" url).
Qed.

Lemma getCache_sound key w :
  image_cache_sound w → image_cache_sound (snd (getCache key w)).
Proof.
  intros Hs. rewrite getCache_unfold; cbn.
  destruct (hd NoFault (w_faults w)); [|done..].
  destruct (w_cache w !! key) as [row|]; [|done].
  destruct (cr_expires_at row >? w_now w); [done|].
  unfold cache_delete, bind, next_fault, ret, throw; cbn.
  destruct (hd NoFault (tl (w_faults w))); cbn; [|done..].
  intros url r Hr. cbn in Hr. apply lookup_delete_Some in Hr as [_ Hr].
  by apply Hs.
Qed.

(** The answers of the mock travel as they are. *)
Lemma as_json_mock_verify url : as_json (mock_verify url) = mock_verify url.
Proof.
  unfold mock_verify. destruct (includes "authentic" url); [done|].
  by destruct (includes "manipulated" url).
Qed.

Lemma setCache_sound key v ttl w :
  (∀ url, key = image_cacheKey url → v = mock_verify url) →
  image_cache_sound w → image_cache_sound (snd (setCache key v ttl w)).
Proof.
  intros Hk Hs. rewrite setCache_unfold; cbn.
  destruct (valid_date _); [|done].
  destruct (hd NoFault (w_faults w)); [|done..].
  destruct (storable v && _); [|done]. cbn.
  intros url r Hr. cbn in Hr.
  apply lookup_insert_Some in Hr as [[-> <-]|[_ Hr]]; cbn [cr_value];
    [|by apply Hs].
  rewrite (Hk url eq_refl). apply as_json_mock_verify.
Qed.

Lemma verifyImage_value url w :
  image_cache_sound w →
  ∃ w1, verifyImage url w = (Val (mock_verify url), w1)
        ∧ image_cache_sound w1.
Proof.
  intros Hs. unfold verifyImage, bind.
  destruct (getCache_returns (image_cacheKey url) w) as (cached & w1 & E).
  pose proof (getCache_sound (image_cacheKey url) w Hs) as Hs1.
  assert (Hc : truthy cached = true → cached = mock_verify url).
  { revert E. rewrite getCache_unfold; cbn.
    destruct (hd NoFault (w_faults w)); [|by intros [= <- _]..].
    destruct (w_cache w !! image_cacheKey url) as [row|] eqn:Hrow;
      [|by intros [= <- _]].
    destruct (cr_expires_at row >? w_now w); [|by intros [= <- _]].
    intros [= <- _] _. by apply Hs. }
  rewrite E in Hs1 |- *; cbn in Hs1.
  destruct (truthy cached) eqn:Ht.
  - rewrite Hc by done. by eexists.
  - unfold sleep; cbn.
    destruct (setCache_returns (image_cacheKey url) (mock_verify url)
                CACHE_TTL_SECONDS (set_now (w_now w1 + 800) w1)) as (w2 & E2).
    rewrite E2. eexists. split; [done|].
    replace w2 with (snd (setCache (image_cacheKey url) (mock_verify url)
                CACHE_TTL_SECONDS (set_now (w_now w1 + 800) w1))) by by rewrite E2.
    apply setCache_sound; [|done].
    by intros url' ->%image_cacheKey_inj.
Qed.

Lemma verifyImage_sound url w :
  image_cache_sound w → image_cache_sound (snd (verifyImage url w)).
Proof.
  intros Hs. destruct (verifyImage_value url w Hs) as (w1 & E & Hs1).
  by rewrite E.
Qed.

Lemma geocodeLocation_sound name w :
  image_cache_sound w → image_cache_sound (snd (geocodeLocation name w)).
Proof.
  intros Hs. unfold geocodeLocation, bind.
  destruct (getCache_returns (geocode_cacheKey name) w) as (cached & w1 & E).
  pose proof (getCache_sound (geocode_cacheKey name) w Hs) as Hs1.
  rewrite E in Hs1 |- *; cbn in Hs1.
  destruct (truthy cached); [done|]. unfold sleep; cbn.
  destruct (setCache_returns (geocode_cacheKey name) (mock_geocode name)
              CACHE_TTL_SECONDS (set_now (w_now w1 + 300) w1)) as (w2 & E2).
  rewrite E2; cbn.
  replace w2 with (snd (setCache (geocode_cacheKey name) (mock_geocode name)
              CACHE_TTL_SECONDS (set_now (w_now w1 + 300) w1))) by by rewrite E2.
  apply setCache_sound; [|done].
  intros url Hk. by apply geocode_key_not_image in Hk.
Qed.

Lemma extractLocation_sound description w :
  image_cache_sound w →
  image_cache_sound (snd (extractLocationFromDescription description w)).
Proof.
  intros Hs. unfold extractLocationFromDescription, bind.
  destruct (getCache_returns (location_cacheKey description) w)
    as (cached & w1 & E).
  pose proof (getCache_sound (location_cacheKey description) w Hs) as Hs1.
  rewrite E in Hs1 |- *; cbn in Hs1.
  destruct (truthy cached); [done|]. unfold sleep; cbn.
  destruct (setCache_returns (location_cacheKey description)
              (mock_extract description) CACHE_TTL_SECONDS
              (set_now (w_now w1 + 500) w1)) as (w2 & E2).
  rewrite E2; cbn.
  replace w2 with (snd (setCache (location_cacheKey description)
              (mock_extract description) CACHE_TTL_SECONDS
              (set_now (w_now w1 + 500) w1))) by by rewrite E2.
  apply setCache_sound; [|done].
  intros url Hk. by apply location_key_not_image in Hk.
Qed.

(** The invariant holds when the process starts and every request keeps
    it: the worlds the routes produce satisfy it. *)
Lemma image_cache_sound_boot now : image_cache_sound (boot now).
Proof. intros url row Hrow. cbn in Hrow. by rewrite lookup_empty in Hrow. Qed.

Ltac sound_step lem :=
  match goal with
  | Hs : image_cache_sound ?w, Hrun : _ ?w = (Val _, ?w0) |- _ =>
      let H := fresh "Hs" in
      pose proof (lem w Hs) as H; rewrite Hrun in H; cbn in H
  end.

Ltac sound_finish :=
  repeat (cbn; branch); unfold image_cache_sound in *; cbn; auto.

Lemma image_cache_sound_handle r w :
  image_cache_sound w → image_cache_sound (snd (handle r w)).
Proof.
  intros Hs. destruct r; cbn.
  - unfold post_disaster. apply guarded_cases; [done|]. intros user _ _.
    unfold addAuditEntry, disasters_insert. unfold_m. sound_finish.
  - unfold put_disaster. apply guarded_cases; [done|]. intros user _ _.
    unfold addAuditEntry, disasters_select_single, disasters_update. unfold_m.
    sound_finish.
  - unfold delete_disaster. apply guarded_cases; [done|]. intros user _ _.
    unfold disasters_select_single, disasters_delete. unfold_m. sound_finish.
  - unfold post_report. apply guarded_cases; [done|]. intros user _ _.
    unfold reports_insert. unfold_m. sound_finish.
  - unfold post_resource. apply guarded_cases; [done|]. intros user _ _.
    destruct (_ || _); [done|].
    unfold try_catch. quiet_step quiet_geocodeLocation.
    sound_step (geocodeLocation_sound (default "" location_name)).
    unfold resources_insert. unfold_m. sound_finish.
  - unfold post_verify_image. apply guarded_cases; [done|]. intros user _ _.
    destruct (missing imageUrl); [done|].
    unfold try_catch. quiet_step quiet_verifyImage.
    sound_step (verifyImage_sound (default "" imageUrl)).
    unfold reports_update_status. unfold_m. sound_finish.
  - unfold post_geocode. apply guarded_cases; [done|]. intros user _ _.
    destruct disasterId as [id|]; [|done].
    destruct (missing description); [done|].
    unfold try_catch. quiet_step quiet_extractLocation.
    sound_step (extractLocation_sound (default "" description)).
    destruct (_ || _); [done|].
    destruct a as [| | |name| | |]; try done.
    quiet_step quiet_geocodeLocation.
    match goal with
    | Hs : image_cache_sound ?w, Hrun : geocodeLocation _ ?w = (Val _, ?w0) |- _ =>
        pose proof (geocodeLocation_sound name w Hs) as Hs2;
        rewrite Hrun in Hs2; cbn in Hs2
    end.
    unfold disasters_update_location, disasters_update. unfold_m. sound_finish.
Qed.

Lemma mock_verify_pending url :
  includes "authentic" url = false → includes "manipulated" url = false →
  mock_verify url = verify_image_pending.
Proof. unfold mock_verify. by intros -> ->. Qed.

(** C9. For an image URL that contains neither "authentic" nor
    "manipulated", in a world whose image entries are those of the mock:
    [verifyImage] returns the pending result; and a verify-image request
    with that URL, from an authorised user, on an existing report, with a
    store that answers and the socket initialised, is answered 200 and
    leaves the targeted report with status "pending", whatever its status
    was before. *)
Theorem unrecognised_image_sets_pending url w :
  includes "authentic" url = false →
  includes "manipulated" url = false →
  image_cache_sound w →
  (∃ w1, verifyImage url w = (Val verify_image_pending, w1))
  ∧ (∀ u user d rid rp0,
       url ≠ "" →
       authenticate u = inr user →
       authorize ["admin"; "contributor"] user = None →
       w_faults w = [] → w_io w = true →
       List.find (report_matches rid d) (w_reports w) = Some rp0 →
       ∃ resp w',
         post_verify_image u d rid (Some url) w = (Val resp, w')
         ∧ status resp = 200
         ∧ In (set_status "pending" rp0) (w_reports w')
         ∧ ∀ rp, In rp (w_reports w') → report_matches rid d rp = true →
                 rp_verification_status rp = "pending").
Proof.
  intros Ha Hm Hs.
  destruct (verifyImage_value url w Hs) as (w1 & E & _).
  rewrite (mock_verify_pending url Ha Hm) in E.
  split; [by eexists|].
  intros u user d rid rp0 Hurl Hu Hz Hf Hio Hfind.
  unfold post_verify_image, guarded. rewrite Hu, Hz. cbn.
  destruct (String.eqb url "") eqn:Hempty; [by apply String.eqb_eq in Hempty|].
  unfold try_catch. quiet_step quiet_verifyImage.
  rewrite E in Hrun. injection Hrun as <- <-.
  unfold reports_update_status. unfold_m. cbn.
  rewrite (Hfaults Hf). cbn.
  frame. rewrite Hfind. cbn. frame. rewrite Hio. cbn.
  eexists _, _. split; [done|]. split; [done|]. cbn. frame.
  split; [by eapply restatus_found|].
  intros rp Hin Hrp. by eapply in_restatus_same.
Qed.

End ImageVerification.

(** ** Cache keys *)

Section CacheKeys.

Lemma append_inj_r p x y : p +:+ x = p +:+ y → x = y.
Proof. induction p as [|c p IH]; cbn; [done|]. intros [= H]. by apply IH. Qed.

Lemma replace_spaces_length s : String.length (replace_spaces s) = String.length s.
Proof. induction s as [|c s IH]; cbn; [done|]. by rewrite IH. Qed.

Lemma replace_spaces_get s i :
  String.get i (replace_spaces s) = underscore <$> String.get i s.
Proof.
  revert i. induction s as [|c s IH]; intros i; cbn; [done|].
  destruct i as [|i]; cbn; [done|apply IH].
Qed.

(** C7, as amended. Each provider's cache key is a function of its input
    alone. For geocoding and location extraction two inputs have the same
    key exactly when they are equal after every single whitespace
    character is replaced by an underscore; that replacement keeps the
    length of the input and every other character, case included, at its
    position. For social-media search the input is the disaster id and
    the query: two inputs have the same key exactly when the id, an
    underscore and the query after that replacement, put together, give
    the same text, which for one and the same id means that the queries
    are equal after the replacement. For image verification and official
    updates two inputs have the same key exactly when they are equal. *)
Theorem cache_keys_replace_each_space a b :
  (geocode_cacheKey a = geocode_cacheKey b ↔ replace_spaces a = replace_spaces b)
  ∧ (location_cacheKey a = location_cacheKey b
     ↔ replace_spaces a = replace_spaces b)
  ∧ (∀ d1 d2, social_media_cacheKey d1 a = social_media_cacheKey d2 b
              ↔ d1 +:+ "_" +:+ replace_spaces a = d2 +:+ "_" +:+ replace_spaces b)
  ∧ (∀ d, social_media_cacheKey d a = social_media_cacheKey d b
          ↔ replace_spaces a = replace_spaces b)
  ∧ (image_cacheKey a = image_cacheKey b ↔ a = b)
  ∧ (official_updates_cacheKey a = official_updates_cacheKey b ↔ a = b)
  ∧ String.length (replace_spaces a) = String.length a
  ∧ (∀ i, String.get i (replace_spaces a) = underscore <$> String.get i a).
Proof.
  unfold geocode_cacheKey, location_cacheKey, social_media_cacheKey,
    image_cacheKey, official_updates_cacheKey.
  repeat split; try (intros ->; done); try (by intros ?%append_inj_r).
  - intros H. do 2 apply append_inj_r in H. by apply (append_inj_r "_") in H.
  - apply replace_spaces_length.
  - apply replace_spaces_get.
Qed.

(** C7 fails as stated: two inputs that differ only in a run of
    whitespace, equal once runs are collapsed, get different keys. *)
Lemma keys_do_not_collapse_runs :
  collapse_whitespace "NYC Flood" = collapse_whitespace "NYC  Flood"
  ∧ geocode_cacheKey "NYC Flood" ≠ geocode_cacheKey "NYC  Flood"
  ∧ location_cacheKey "NYC Flood" ≠ location_cacheKey "NYC  Flood"
  ∧ social_media_cacheKey "d1" "NYC Flood" ≠ social_media_cacheKey "d1" "NYC  Flood".
Proof. repeat split; vm_compute; congruence. Qed.

End CacheKeys.

(** ** The radius query *)

Section RadiusQuery.

Variable distance : point → point → Q.

Lemma filter_sublist {A} (f : A → bool) (l : list A) :
  sublist (List.filter f l) l.
Proof.
  induction l as [|x l IH]; cbn; [constructor|].
  destruct (f x); by constructor.
Qed.

Lemma filter_all {A} (l : list A) : List.filter (λ _, true) l = l.
Proof. induction l as [|x l IH]; cbn; [done|]. by rewrite IH. Qed.

(** C2, as amended. For every distance function, disaster, centre and
    radius, the stored procedure answers exactly the rows of the table
    that belong to the disaster and lie within the radius, in the order
    in which the table holds them. *)
Theorem radius_query_selects_in_table_order d c R table :
  (∀ r, In r (find_nearby_resources distance d c R table)
        ↔ In r table ∧ in_radius distance d c R r)
  ∧ sublist (find_nearby_resources distance d c R table) table.
Proof.
  split.
  - intros r. unfold find_nearby_resources, in_radius, ST_DWithin.
    rewrite filter_In, andb_true_iff, N.eqb_eq, Qle_bool_iff. tauto.
  - apply filter_sublist.
Qed.

(** Whatever the distance, provided a point is at distance 0 from itself:
    rows stored farther-first within the radius come back farther-first. *)
Lemma stored_order_is_not_distance_order c far (r1 r2 : resource) rest :
  (distance c c == 0)%Q →
  (0 < distance far c)%Q →
  rs_location r1 = far → rs_location r2 = c →
  ¬ StronglySorted (nearer distance c) (r1 :: r2 :: rest).
Proof.
  intros H0 Hfar E1 E2 Hs.
  apply StronglySorted_inv in Hs as [_ Hall].
  apply Forall_inv in Hall. unfold nearer in Hall.
  rewrite E1, E2 in Hall. destruct Hall as [Hlt|[Heq _]]; lra.
Qed.

End RadiusQuery.

(** ** The worlds of a running process *)

Section Reachable.

Lemma appended_is_array trail entry : ∃ items, appended trail entry = JArr items.
Proof. destruct trail; cbn; eauto. Qed.

Lemma patch_table_arrays id p ds :
  (∀ t, p_audit_trail p = Some t → ∃ items, t = JArr items) →
  Forall (λ d, ∃ items, d_audit_trail d = JArr items) ds →
  Forall (λ d, ∃ items, d_audit_trail d = JArr items) (patch_table id p ds).
Proof.
  intros Hp Hds. unfold patch_table. apply Forall_map.
  eapply Forall_impl; [exact Hds|]. cbn. intros d Hd.
  destruct (N.eqb (d_id d) id); [|done]. cbn.
  destruct (p_audit_trail p) as [t|]; cbn; [by apply Hp|done].
Qed.

Lemma filter_arrays (f : disaster → bool) ds :
  Forall (λ d, ∃ items, d_audit_trail d = JArr items) ds →
  Forall (λ d, ∃ items, d_audit_trail d = JArr items) (List.filter f ds).
Proof.
  intros H. apply List.Forall_forall. intros d [Hin _]%filter_In.
  by eapply List.Forall_forall in H.
Qed.

Ltac arrays_finish :=
  repeat (cbn; branch); unfold trails_are_arrays in *; cbn; frame;
  rewrite ?addAuditEntry_run in *; simplify_eq;
  first [ done
        | apply Forall_app; split; [done|]; constructor; [|done]; cbn; by eauto
        | apply patch_table_arrays; [|done]; cbn; intros ? [= <-];
          first [apply appended_is_array | by eauto]
        | by apply filter_arrays ].

Lemma handle_keeps_arrays r w :
  trails_are_arrays w → trails_are_arrays (snd (handle r w)).
Proof.
  intros Hs. destruct r; cbn.
  - unfold post_disaster. apply guarded_cases; [done|]. intros user _ _.
    unfold addAuditEntry, disasters_insert. unfold_m. arrays_finish.
  - unfold put_disaster. apply guarded_cases; [done|]. intros user _ _.
    unfold disasters_select_single, disasters_update. unfold_m.
    arrays_finish.
  - unfold delete_disaster. apply guarded_cases; [done|]. intros user _ _.
    unfold disasters_select_single, disasters_delete. unfold_m. arrays_finish.
  - unfold post_report. apply guarded_cases; [done|]. intros user _ _.
    unfold reports_insert. unfold_m. arrays_finish.
  - unfold post_resource. apply guarded_cases; [done|]. intros user _ _.
    destruct (_ || _); [done|].
    unfold try_catch. quiet_step quiet_geocodeLocation.
    unfold resources_insert. unfold_m. arrays_finish.
  - unfold post_verify_image. apply guarded_cases; [done|]. intros user _ _.
    destruct (missing imageUrl); [done|].
    unfold try_catch. quiet_step quiet_verifyImage.
    unfold reports_update_status. unfold_m. arrays_finish.
  - unfold post_geocode. apply guarded_cases; [done|]. intros user _ _.
    destruct disasterId as [id|]; [|done].
    destruct (missing description); [done|].
    unfold try_catch. quiet_step quiet_extractLocation.
    destruct (_ || _); [unfold ret, trails_are_arrays in *; cbn; by frame|].
    destruct a as [| | |name| | |];
      try (unfold ret, throw, trails_are_arrays in *; cbn; by frame).
    quiet_step quiet_geocodeLocation.
    unfold disasters_update_location, disasters_update. unfold_m. arrays_finish.
Qed.
Ltac io_finish := repeat (cbn; branch); cbn; frame; congruence.

Lemma handle_keeps_io r w : w_io (snd (handle r w)) = w_io w.
Proof.
  destruct r; cbn.
  - unfold post_disaster. apply guarded_cases; [done|]. intros user _ _.
    unfold addAuditEntry, disasters_insert. unfold_m. io_finish.
  - unfold put_disaster. apply guarded_cases; [done|]. intros user _ _.
    unfold addAuditEntry, disasters_select_single, disasters_update. unfold_m.
    io_finish.
  - unfold delete_disaster. apply guarded_cases; [done|]. intros user _ _.
    unfold disasters_select_single, disasters_delete. unfold_m. io_finish.
  - unfold post_report. apply guarded_cases; [done|]. intros user _ _.
    unfold reports_insert. unfold_m. io_finish.
  - unfold post_resource. apply guarded_cases; [done|]. intros user _ _.
    destruct (_ || _); [done|].
    unfold try_catch. quiet_step quiet_geocodeLocation.
    unfold resources_insert. unfold_m. io_finish.
  - unfold post_verify_image. apply guarded_cases; [done|]. intros user _ _.
    destruct (missing imageUrl); [done|].
    unfold try_catch. quiet_step quiet_verifyImage.
    unfold reports_update_status. unfold_m. io_finish.
  - unfold post_geocode. apply guarded_cases; [done|]. intros user _ _.
    destruct disasterId as [id|]; [|done].
    destruct (missing description); [done|].
    unfold try_catch. quiet_step quiet_extractLocation.
    destruct (_ || _); [unfold ret; cbn; by frame|].
    destruct a as [| | |name| | |]; try (unfold ret, throw; cbn; by frame).
    quiet_step quiet_geocodeLocation.
    unfold disasters_update_location, disasters_update. unfold_m. io_finish.
Qed.

(** The assumptions of the properties above hold in every world of a
    running process: the socket is initialised, the image entries of the
    cache are those of the mock, and every trail is an array. *)
Lemma reachable_invariants w :
  reachable w → w_io w = true ∧ image_cache_sound w ∧ trails_are_arrays w.
Proof.
  induction 1 as [now|r w _ (Hio & Hs & Ha)|t w _ IH|fs w _ IH].
  - split; [done|]. split; [apply image_cache_sound_boot|constructor].
  - split; [by rewrite handle_keeps_io|].
    split; [by apply image_cache_sound_handle|by apply handle_keeps_arrays].
  - exact IH.
  - exact IH.
Qed.

End Reachable.

(** ** Scenarios *)

(** C2 fails as stated. Three shelters of one disaster, all within
    20 000 km of (0, 0), held by the table in the order Manhattan, (0, 0),
    Manhattan: the stored procedure answers them in that order, the
    farther Manhattan before the shelter at the centre itself, so the
    answer is not in ascending distance. *)
Lemma nearby_resources_come_in_stored_order :
  find_nearby_resources grid_distance 1 (0, 0)%Q 20000000 shelter_rows
  = shelter_rows
  ∧ List.map rs_location_name shelter_rows
    = ["Manhattan, NYC"; "Atlantis"; "Manhattan, NYC"]
  ∧ ¬ radius_query_claim grid_distance 1 (0, 0)%Q 20000000 shelter_rows
        (find_nearby_resources grid_distance 1 (0, 0)%Q 20000000 shelter_rows).
Proof.
  split; [by vm_compute|]. split; [by vm_compute|].
  intros [_ Hs].
  set (l := find_nearby_resources _ _ _ _ _) in Hs. vm_compute in l. subst l.
  eapply stored_order_is_not_distance_order in Hs;
    [done| | |reflexivity|reflexivity]; by vm_compute.
Qed.

(** C1 fails as stated. Creating a report of the flood succeeds with 201
    and leaves the trail of the flood as it was: no entry is appended. *)
Lemma child_creation_leaves_trail :
  answered (handle report_request flood_world) = Some 201
  ∧ trail_of 1 (snd (handle report_request flood_world)) = trail_of 1 flood_world
  ∧ ¬ trail_extended (trail_of 1 flood_world)
        (trail_of 1 (snd (handle report_request flood_world))).
Proof.
  repeat split; try by vm_compute.
  intros (items & entry & H1 & H2); vm_compute in H1, H2.
  injection H1 as <-; discriminate H2.
Qed.


(** The update of the description of the flood at instant 2000. *)
Lemma direct_mutations_append_to_trail_witness :
  ∃ user d,
    authenticate (Some "netrunnerX") = inr user
    ∧ find_disaster 1 (w_disasters (set_now 2000 flood_world)) = Some d
    ∧ (∀ items, d_audit_trail d = JArr items →
         trail_of 1 (snd (handle update_request (set_now 2000 flood_world)))
         = Some (JArr (items ++ [audit_entry "update" (u_id user) 2000])))
    ∧ (∀ j, j ≠ 1%N →
         trail_of j (snd (handle update_request (set_now 2000 flood_world)))
         = trail_of j (set_now 2000 flood_world)).
Proof.
  apply (direct_mutations_append_to_trail update_request
           (set_now 2000 flood_world)
           (response_of (handle update_request (set_now 2000 flood_world))));
    by vm_compute.
Defined.

(** A shelter at "constructor": the mock table answers with a method of
    its prototype, which has no [lat] and no [lon]. *)
Lemma resource_requires_usable_coords_witness :
  unusable JFunction = true
  ∧ ∃ resp w',
      post_resource (Some "netrunnerX") 1 (Some "Shelter")
        (Some "constructor") (Some "shelter") flood_world = (Val resp, w')
      ∧ (unusable JFunction = true →
           status resp = 400
           ∧ w_resources w' = w_resources flood_world
           ∧ w_trace w' = w_trace flood_world)
      ∧ (w_resources w' ≠ w_resources flood_world →
           unusable JFunction = false
           ∧ ∃ r lon lat,
               w_resources w' = w_resources flood_world ++ [r]
               ∧ prop "lon" JFunction = Some (JNum lon)
               ∧ prop "lat" JFunction = Some (JNum lat)
               ∧ rs_location r = (lon, lat)).
Proof.
  split; [reflexivity|].
  apply (resource_requires_usable_coords (Some "netrunnerX") netrunnerX 1
           (Some "Shelter") (Some "constructor") (Some "shelter") flood_world
           JFunction (snd (geocodeLocation "constructor" flood_world)));
    by vm_compute.
Defined.

(** The cached geocoding of Manhattan, one millisecond before its expiry
    and at its expiry. *)
Lemma getCache_checks_expiry_witness :
  getCache (geocode_cacheKey "Manhattan, NYC") (set_now 3601299 manhattan_world)
  = (Val (coords (407831 # 10000) (-739712 # 10000)),
     set_faults [] (set_now 3601299 manhattan_world))
  ∧ ∃ w', getCache (geocode_cacheKey "Manhattan, NYC")
            (set_now 3601300 manhattan_world) = (Val JNull, w').
Proof.
  split.
  - apply (proj1 (getCache_checks_expiry (geocode_cacheKey "Manhattan, NYC")
                    (coords (407831 # 10000) (-739712 # 10000)) 3601300
                    (set_now 3601299 manhattan_world)
                    ltac:(by vm_compute) ltac:(by vm_compute))).
    by vm_compute.
  - apply (proj2 (getCache_checks_expiry (geocode_cacheKey "Manhattan, NYC")
                    (coords (407831 # 10000) (-739712 # 10000)) 3601300
                    (set_now 3601300 manhattan_world)
                    ltac:(by vm_compute) ltac:(by vm_compute))).
    by vm_compute.
Defined.


(** The report on the flood. *)
Lemma one_event_per_successful_mutation_witness :
  ∃ resp w',
    handle report_request flood_world = (Val resp, w')
    ∧ published_once report_request flood_world resp w'.
Proof.
  apply (one_event_per_successful_mutation flood_world).
  by vm_compute.
Defined.


(** The clock plays no part in the invariant. *)
Lemma image_cache_sound_set_now t w :
  image_cache_sound w → image_cache_sound (set_now t w).
Proof. intros H url row. apply H. Qed.

Lemma image_cache_sound_verified_world : image_cache_sound verified_world.
Proof.
  unfold verified_world, reported_world, flood_world.
  do 2 apply image_cache_sound_handle. apply image_cache_sound_set_now.
  apply image_cache_sound_handle, image_cache_sound_boot.
Qed.

(** The verified report, verified again with an image the mock does not
    recognise: verified becomes pending. *)
Lemma unrecognised_image_sets_pending_witness :
  (∃ w1, verifyImage "http://img.example/photo-3.png" verified_world
         = (Val verify_image_pending, w1))
  ∧ ∃ resp w',
      post_verify_image (Some "netrunnerX") 1 2
        (Some "http://img.example/photo-3.png") verified_world = (Val resp, w')
      ∧ status resp = 200
      ∧ In (set_status "pending"
              (Report 2 1 "citizen1" "Need food in Lower East Side" None
                      "verified" 5000))
           (w_reports w')
      ∧ ∀ rp, In rp (w_reports w') → report_matches 2 1 rp = true →
              rp_verification_status rp = "pending".
Proof.
  destruct (unrecognised_image_sets_pending "http://img.example/photo-3.png"
              verified_world eq_refl eq_refl image_cache_sound_verified_world)
    as [H1 H2].
  split; [exact H1|].
  apply (H2 (Some "netrunnerX") netrunnerX); try by vm_compute.
Defined.

(** A store that throws on the lookup, and one that refuses the upsert. *)
Lemma cache_calls_absorb_failures_witness :
  getCache "k" (set_faults [StoreThrow] manhattan_world)
  = (Val JNull, set_faults [] (set_faults [StoreThrow] manhattan_world))
  ∧ ∃ w', setCache "k" (JStr "v") 3600
            (set_faults [StoreError "500"] manhattan_world) = (Val tt, w')
          ∧ w_cache w' = w_cache (set_faults [StoreError "500"] manhattan_world).
Proof.
  split.
  - apply (proj2 (proj2 (cache_calls_absorb_failures "k" (JStr "v") 3600
                           (set_faults [StoreThrow] manhattan_world)))).
    discriminate.
  - apply (proj2 (proj2 (cache_calls_absorb_failures "k" (JStr "v") 3600
                           (set_faults [StoreError "500"] manhattan_world)))).
    discriminate.
Defined.

(** The three shelters, within 20 000 km of (0, 0). *)
Lemma radius_query_selects_in_table_order_witness :
  (∀ r, In r (find_nearby_resources grid_distance 1 (0, 0)%Q 20000000
                shelter_rows)
        ↔ In r shelter_rows ∧ in_radius grid_distance 1 (0, 0)%Q 20000000 r)
  ∧ sublist (find_nearby_resources grid_distance 1 (0, 0)%Q 20000000
               shelter_rows) shelter_rows.
Proof.
  apply (radius_query_selects_in_table_order grid_distance 1 (0, 0)%Q
           20000000 shelter_rows).
Defined.

(** A space and a tab at the same position give the same key; so do, for
    two disasters, a query and the query that starts where the id of the
    other disaster ends. *)
Lemma cache_keys_replace_each_space_witness :
  geocode_cacheKey "NYC Flood" = geocode_cacheKey nyc_tab_flood
  ∧ location_cacheKey "NYC Flood" = location_cacheKey nyc_tab_flood
  ∧ social_media_cacheKey "x" "y z" = social_media_cacheKey "x_y" "z".
Proof.
  destruct (cache_keys_replace_each_space "NYC Flood" nyc_tab_flood)
    as (H1 & H2 & _).
  destruct (cache_keys_replace_each_space "y z" "z") as (_ & _ & H3 & _).
  split; [apply H1|split; [apply H2|apply (H3 "x" "x_y")]]; reflexivity.
Defined.

(** * Further properties *)

(** ** The cache, key by key *)

Section CacheMore.

Implicit Types (w : world) (key : string) (v : json).

Lemma cache_delete_unfold key w :
  snd (cache_delete key w)
  = match hd NoFault (w_faults w) with
    | NoFault => set_cache (delete key (w_cache w)) (set_faults (tl (w_faults w)) w)
    | _ => set_faults (tl (w_faults w)) w
    end.
Proof.
  unfold cache_delete, bind, next_fault, ret, throw. cbn.
  by destruct (hd NoFault (w_faults w)).
Qed.

Lemma getCache_other_key key other w :
  other ≠ key →
  w_cache (snd (getCache key w)) !! other = w_cache w !! other
  ∧ w_now (snd (getCache key w)) = w_now w.
Proof.
  intros Hne. rewrite getCache_unfold; cbv zeta.
  destruct (hd NoFault (w_faults w)); [|done..].
  destruct (w_cache w !! key) as [row|]; [|done].
  destruct (cr_expires_at row >? w_now w); [done|].
  rewrite cache_delete_unfold; cbn.
  destruct (hd NoFault (tl (w_faults w))); cbn; [|done..].
  split; [by apply lookup_delete_ne|done].
Qed.

Lemma setCache_other_key key other v ttl w :
  other ≠ key →
  w_cache (snd (setCache key v ttl w)) !! other = w_cache w !! other
  ∧ w_now (snd (setCache key v ttl w)) = w_now w.
Proof.
  intros Hne. rewrite setCache_unfold; cbn.
  destruct (valid_date _); [|done].
  destruct (hd NoFault (w_faults w)); [|done..].
  destruct (storable v && _); [|done]. cbn. split; [by apply lookup_insert_ne|done].
Qed.

(** X1. Whatever the store answers, a read or a write of one key leaves
    the entry of every other key as it was. *)
Theorem cache_calls_keep_other_keys key other v ttl w :
  other ≠ key →
  w_cache (snd (getCache key w)) !! other = w_cache w !! other
  ∧ w_cache (snd (setCache key v ttl w)) !! other = w_cache w !! other.
Proof.
  intros Hne. split.
  - by apply getCache_other_key.
  - by apply setCache_other_key.
Qed.

(** X2. With a store that answers, reading a key whose entry has expired
    removes that entry, and reading a key whose entry has not expired, or
    that has none, leaves the cache as it was. *)
Theorem getCache_evicts_expired_entries key w :
  w_faults w = [] →
  w_cache (snd (getCache key w))
  = match w_cache w !! key with
    | Some row =>
        if cr_expires_at row >? w_now w then w_cache w
        else delete key (w_cache w)
    | None => w_cache w
    end.
Proof.
  intros Hf. rewrite getCache_unfold; cbv zeta. rewrite Hf; cbn [hd].
  destruct (w_cache w !! key) as [row|]; [|done].
  destruct (cr_expires_at row >? w_now w); [done|].
  rewrite cache_delete_unfold; cbn. by rewrite ?Hf.
Qed.


End CacheMore.

(** ** The services in front of the cache *)

Section Gateway.

Implicit Types (w : world) (key : string).


Lemma fetchSocialMediaReports_cached_call loaded random disasterId query :
  fetchSocialMediaReports loaded random disasterId query
  = cached_call (social_media_cacheKey disasterId (default "" query)) 700
      (mock_social loaded random disasterId (default "" query)).
Proof. reflexivity. Qed.

Lemma fetchOfficialUpdates_cached_call loaded source :
  fetchOfficialUpdates loaded source
  = cached_call (official_updates_cacheKey source) 1000
      (mock_updates loaded source).
Proof. reflexivity. Qed.

(** Without a live entry the read is a miss, for every answer of the
    store. *)
Lemma getCache_miss key w :
  no_live_entry key w →
  ∃ cached w1, getCache key w = (Val cached, w1) ∧ truthy cached = false
               ∧ w_now w1 = w_now w.
Proof.
  intros Hn. rewrite getCache_unfold; cbv zeta.
  destruct (hd NoFault (w_faults w)); [|by eauto 10..].
  destruct (w_cache w !! key) as [row|] eqn:Hrow; [|by eauto 10].
  destruct (cr_expires_at row >? w_now w) eqn:Hgt.
  - destruct (Hn row Hrow) as [Hexp|Hfalsy]; [apply Z.gtb_lt in Hgt; lia|].
    by eauto 10.
  - eexists _, _. split; [done|]. split; [done|].
    rewrite cache_delete_unfold. by destruct (hd NoFault _).
Qed.

(** A miss returns the answer of the provider, whatever the store does
    with it. *)
Lemma cached_call_miss_value key delay answer w :
  no_live_entry key w →
  ∃ w', cached_call key delay answer w = (Val answer, w').
Proof.
  intros Hn. destruct (getCache_miss key w Hn) as (cached & w1 & E & Hf & _).
  unfold cached_call, bind. rewrite E, Hf. unfold sleep; cbn.
  destruct (setCache_returns key answer CACHE_TTL_SECONDS
              (set_now (w_now w1 + delay) w1)) as (w2 & E2).
  rewrite E2. by eexists.
Qed.







(** X5. No request to add a resource is answered in the 2xx class, and
    none changes a table, the identifier supply or the history, whatever
    the world and whatever the store answers: the request is refused with
    401, 403 or 400, or it reaches the store, which refuses the row, and
    is answered 500. *)
Theorem resource_creation_is_always_refused u d n l t w :
  ∃ resp w',
    handle (PostResource u d n l t) w = (Val resp, w')
    ∧ In (status resp) [400; 401; 403; 500]
    ∧ records w' = records w.
Proof.
  cbn [handle]. unfold post_resource, guarded, authenticate, authorize.
  destruct (missing u); [by eexists _, _; cbn; eauto 10|].
  destruct (List.find _ _) as [user|]; [|by eexists _, _; cbn; eauto 10].
  destruct (existsb _ _); [|by eexists _, _; cbn; eauto 10].
  destruct (_ || _); [by eexists _, _; cbn; eauto 10|].
  unfold try_catch. quiet_step quiet_geocodeLocation.
  unfold resources_insert, records. unfold_m.
  repeat (cbn; branch); eexists _, _; (split; [reflexivity|]); cbn;
    (split; [by eauto 10|]); congruence.
Qed.

(** A service call leaves the other keys without a live entry. *)
Lemma cached_call_other_key key other delay answer w :
  other ≠ key → 0 ≤ delay → no_live_entry other w →
  no_live_entry other (snd (cached_call key delay answer w)).
Proof.
  intros Hne Hdelay Hn. unfold cached_call, bind.
  destruct (getCache_returns key w) as (cached & w1 & E). rewrite E.
  destruct (getCache_other_key key other w Hne) as [Hc1 Ht1].
  rewrite E in Hc1, Ht1; cbn in Hc1, Ht1.
  assert (Hn1 : no_live_entry other w1).
  { intros row Hrow. rewrite Hc1 in Hrow. rewrite Ht1. by apply Hn. }
  destruct (truthy cached); [done|]. unfold sleep; cbn.
  destruct (setCache_returns key answer CACHE_TTL_SECONDS
              (set_now (w_now w1 + delay) w1)) as (w2 & E2).
  destruct (setCache_other_key key other answer CACHE_TTL_SECONDS
              (set_now (w_now w1 + delay) w1) Hne) as [Hc2 Ht2].
  rewrite E2 in Hc2, Ht2 |- *; cbn in Hc2, Ht2 |- *.
  intros row Hrow. rewrite Hc2 in Hrow. rewrite Ht2.
  destruct (Hn1 row Hrow) as [H|H]; [left; lia|by right].
Qed.

End Gateway.

(** ** The social-media and official-update services *)

Section Providers.

(** The instant at which the two modules were loaded. *)
Variable loaded : Z.

Implicit Types (w : world).

Lemma includes_empty s : includes "" s = true.
Proof. by destruct s. Qed.



(** X6. On a miss, whatever the store answers, the social-media service
    returns posts of the mock data that belong to the disaster and whose
    content contains the query, letter case apart; none at all when the
    draw is below 0.2; otherwise all of them, and with an empty or absent
    query all the posts of the disaster. *)
Theorem social_media_miss_answer random disasterId query w :
  no_live_entry (social_media_cacheKey disasterId (default "" query)) w →
  ∃ posts w',
    fetchSocialMediaReports loaded random disasterId query w
    = (Val (JArr (List.map post_json posts)), w')
    ∧ (∀ p, In p posts →
            In p (MOCK_SOCIAL_MEDIA_DATA loaded)
            ∧ sp_disaster_id p = disasterId
            ∧ includes (toLowerCase (default "" query))
                       (toLowerCase (sp_content p)) = true)
    ∧ ((random < 2 # 10)%Q → posts = [])
    ∧ ((2 # 10 <= random)%Q →
         (∀ p, In p (MOCK_SOCIAL_MEDIA_DATA loaded) →
               sp_disaster_id p = disasterId →
               includes (toLowerCase (default "" query))
                        (toLowerCase (sp_content p)) = true →
               In p posts)
         ∧ (default "" query = "" →
              posts = List.filter (λ p, String.eqb (sp_disaster_id p) disasterId)
                        (MOCK_SOCIAL_MEDIA_DATA loaded))).
Proof.
  intros Hn. rewrite fetchSocialMediaReports_cached_call.
  destruct (cached_call_miss_value _ 700
              (mock_social loaded random disasterId (default "" query)) w Hn)
    as (w' & E).
  rewrite E. unfold mock_social.
  destruct (Qle_bool (2 # 10) random) eqn:Hr; cbn [negb].
  - eexists _, w'. split; [done|].
    apply Qle_bool_iff in Hr. split; [|split].
    + intros p [Hin Hm]%filter_In. unfold post_matches in Hm.
      apply andb_true_iff in Hm as [Hd Hi]. by apply String.eqb_eq in Hd.
    + intros Hlt. by apply Qlt_not_le in Hlt.
    + intros _. split.
      * intros p Hin Hd Hi. apply filter_In. split; [done|].
        unfold post_matches. by rewrite Hi, (proj2 (String.eqb_eq _ _) Hd).
      * intros ->. apply List.filter_ext. intros p. unfold post_matches.
        cbn [toLowerCase]. by rewrite includes_empty, andb_true_r.
  - exists [], w'. split; [done|]. split; [by intros p []|]. split; [done|].
    intros Hle. apply Qle_bool_iff in Hle. congruence.
Qed.





(** X9. The official-updates route without a source, when neither FEMA
    nor the Red Cross has a live entry in the cache, answers 200 with the
    two updates of FEMA followed by the two of the Red Cross, whatever the
    store answers. *)
Theorem official_updates_of_all_sources w :
  no_live_entry (official_updates_cacheKey "fema") w →
  no_live_entry (official_updates_cacheKey "redcross") w →
  ∃ fema redcross w',
    mock_updates loaded "fema" = JArr fema
    ∧ mock_updates loaded "redcross" = JArr redcross
    ∧ length fema = 2%nat ∧ length redcross = 2%nat
    ∧ get_official_updates loaded None w
      = (Val (JsonResponse 200 (JArr (fema ++ redcross))), w').
Proof.
  intros Hf Hr. unfold get_official_updates, try_catch. cbn [missing negb].
  unfold bind at 1. unfold bind at 1.
  rewrite !fetchOfficialUpdates_cached_call.
  pose proof (cached_call_other_key (official_updates_cacheKey "fema")
                (official_updates_cacheKey "redcross") 1000
                (mock_updates loaded "fema") w) as Hr1.
  destruct (cached_call_miss_value _ 1000 (mock_updates loaded "fema") w Hf)
    as (w1 & E1).
  rewrite E1 in Hr1 |- *. cbn [snd] in Hr1.
  assert (Hr' : no_live_entry (official_updates_cacheKey "redcross") w1).
  { apply Hr1; [discriminate|lia|done]. }
  unfold bind at 1.
  destruct (cached_call_miss_value _ 1000 (mock_updates loaded "redcross") w1 Hr')
    as (w2 & E2).
  rewrite E2. eexists _, _, w2.
  split; [reflexivity|]. split; [reflexivity|]. split; [reflexivity|].
  split; reflexivity.
Qed.

End Providers.

(** ** Who may change the records *)

Section Access.

Implicit Types (w : world) (r : request).

Lemma authenticate_accepts u user :
  authenticate u = inr user → u = Some (u_id user) ∧ In user mockUsers.
Proof.
  unfold authenticate. destruct u as [s|]; [|done]. cbn [missing].
  destruct (String.eqb s ""); [done|].
  destruct (List.find _ _) as [x|] eqn:Hf; [|done]. intros [= <-].
  apply find_some in Hf as [Hin He]. apply String.eqb_eq in He.
  cbn in He. by subst.
Qed.

Lemma authorize_accepts roles user :
  authorize roles user = None →
  ∃ role, In role roles ∧ In role (u_roles user).
Proof.
  unfold authorize. destruct (existsb _ _) eqn:E; [|done]. intros _.
  apply existsb_exists in E as (role & Hin & Hr).
  apply existsb_exists in Hr as (role' & Hin' & ->%String.eqb_eq). eauto.
Qed.

Lemma guarded_allowed roles u (h : user → M response) w resp w' :
  guarded roles u h w = (Val resp, w') →
  succeeded resp = true ∨ records w' ≠ records w →
  ∃ user role, u = Some (u_id user) ∧ In user mockUsers
               ∧ In role roles ∧ In role (u_roles user).
Proof.
  apply guarded_cases.
  - intros r Hr [= <- <-] [H|H]; [congruence|done].
  - intros user [-> Hin]%authenticate_accepts (role & H1 & H2)%authorize_accepts _ _.
    eauto 10.
Qed.

(** X10. A request that is answered in the 2xx class, or that changes
    a table, the identifier supply or the history at all, carries in its
    header the id of a mock user who holds one of the roles of the route:
    citizen or contributor to report, admin or contributor otherwise. *)
Theorem only_allowed_users_change_the_records r w resp w' :
  handle r w = (Val resp, w') →
  succeeded resp = true ∨ records w' ≠ records w →
  ∃ user role, header r = Some (u_id user) ∧ In user mockUsers
               ∧ In role (allowed_roles r) ∧ In role (u_roles user).
Proof. destruct r; cbn; apply guarded_allowed. Qed.

Lemma guarded_refuses roles u (h : user → M response) w :
  match authenticate u with
  | inl _ => false
  | inr user => match authorize roles user with Some _ => false | None => true end
  end = false →
  ∃ resp, guarded roles u h w = (Val resp, w)
          ∧ status resp = (if missing u then 401 else 403).
Proof.
  unfold guarded, authenticate, authorize.
  destruct (missing u); [by eexists|].
  destruct (List.find _ _) as [user|]; [|by eexists].
  destruct (existsb _ _); [done|by eexists].
Qed.

(** X11. A request without the header is answered 401; one whose header
    names no mock user, or a mock user who holds none of the roles of the
    route, is answered 403; in each case the world is left as it was: no
    call to the cache or to the store is made. *)
Theorem other_requests_are_refused_untouched r w :
  allowed r = false →
  ∃ resp, handle r w = (Val resp, w)
          ∧ status resp = (if missing (header r) then 401 else 403).
Proof. destruct r; cbn; apply guarded_refuses. Qed.

End Access.

(** ** Deleting and updating a disaster *)

Section Ownership.

Implicit Types (w : world) (r : request).

Lemma In_filter_not {A} (key : A → N) (id : N) (x : A) (l : list A) :
  In x (List.filter (λ y, negb (N.eqb (key y) id)) l) ↔ In x l ∧ key x ≠ id.
Proof.
  rewrite filter_In, negb_true_iff, N.eqb_neq. tauto.
Qed.

(** X12. After a deletion answered in the 2xx class the tables hold
    exactly the rows they held that do not belong to the disaster: the
    disaster is gone, and so is every report and every resource of it,
    while every other row is kept. *)
Theorem delete_removes_the_disaster_and_its_rows u id w resp w' :
  handle (DeleteDisasterById u id) w = (Val resp, w') →
  succeeded resp = true →
  (∀ d, In d (w_disasters w') ↔ In d (w_disasters w) ∧ d_id d ≠ id)
  ∧ (∀ rp, In rp (w_reports w') ↔ In rp (w_reports w) ∧ rp_disaster_id rp ≠ id)
  ∧ (∀ rs, In rs (w_resources w')
           ↔ In rs (w_resources w) ∧ rs_disaster_id rs ≠ id).
Proof.
  cbn. unfold delete_disaster. apply guarded_cases; [congruence|].
  intros user _ _.
  unfold disasters_select_single, disasters_delete. unfold_m.
  repeat (cbn; branch); intros; simplify_eq/=; try congruence.
  all: split; [|split]; intros; apply In_filter_not.
Qed.

(** X13. An update or a deletion that is answered in the 2xx class, or
    that changes a table, the identifier supply or the history at all, is
    made on a disaster that exists, by its owner or by a user who holds
    the role admin. *)
Theorem only_owner_or_admin_updates_or_deletes r w resp w' :
  handle r w = (Val resp, w') →
  succeeded resp = true ∨ records w' ≠ records w →
  match r with
  | PutDisaster u id _ | DeleteDisasterById u id =>
      ∃ user d, authenticate u = inr user
        ∧ find_disaster id (w_disasters w) = Some d
        ∧ (has_role "admin" user = true ∨ d_owner_id d = u_id user)
  | _ => True
  end.
Proof.
  destruct r; cbn; try done.
  - unfold put_disaster. apply guarded_cases.
    { intros r Hr [= <- <-] [H|H]; [congruence|done]. }
    intros user Hu _.
    unfold addAuditEntry, disasters_select_single, disasters_update. unfold_m.
    repeat (cbn; branch); intros ? [H|H]; simplify_eq/=; try congruence.
    all: try (exfalso; apply H; reflexivity).
    all: match goal with
         | E : (_ || _) = true |- _ =>
             apply orb_true_iff in E as [E|E%String.eqb_eq]; eauto 10
         end.
  - unfold delete_disaster. apply guarded_cases.
    { intros r Hr [= <- <-] [H|H]; [congruence|done]. }
    intros user Hu _.
    unfold disasters_select_single, disasters_delete. unfold_m.
    repeat (cbn; branch); intros ? [H|H]; simplify_eq/=; try congruence.
    all: try (exfalso; apply H; reflexivity).
    all: match goal with
         | E : (_ || _) = true |- _ =>
             apply orb_true_iff in E as [E|E%String.eqb_eq]; eauto 10
         end.
Qed.

(** X14. With a store that answers, a user who passes the two middlewares
    but is neither an admin nor the owner of the disaster is answered 403
    on an update with a body and on a deletion, and nothing is changed but
    the schedule of the store, consumed by the one call that read the
    disaster. *)
Theorem other_contributors_cannot_update_or_delete r w user d :
  match r with
  | PutDisaster _ id b =>
      body_keys b ≠ 0%nat ∧ find_disaster id (w_disasters w) = Some d
  | DeleteDisasterById _ id => find_disaster id (w_disasters w) = Some d
  | _ => False
  end →
  authenticate (header r) = inr user →
  allowed r = true →
  has_role "admin" user = false →
  d_owner_id d ≠ u_id user →
  hd NoFault (w_faults w) = NoFault →
  ∃ resp, handle r w = (Val resp, set_faults (tl (w_faults w)) w)
          ∧ status resp = 403.
Proof.
  intros Hr Hu Hz Ha Ho Hf. apply String.eqb_neq in Ho.
  unfold allowed in Hz. rewrite Hu in Hz.
  destruct r; try done; cbn in Hu, Hz |- *.
  - destruct Hr as [Hb Hd]. apply Nat.eqb_neq in Hb.
    unfold put_disaster, guarded. rewrite Hu.
    destruct (authorize _ user); [done|]. rewrite Hb.
    unfold disasters_select_single. unfold_m. cbn. rewrite Hf. cbn.
    rewrite Hd. cbn. rewrite Ha, Ho. by eexists.
  - unfold delete_disaster, guarded. rewrite Hu.
    destruct (authorize _ user); [done|].
    unfold disasters_select_single. unfold_m. cbn. rewrite Hf. cbn.
    rewrite Hr. cbn. rewrite Ha, Ho. by eexists.
Qed.

(** X15. After an update answered in the 2xx class the row of the
    disaster keeps its id, owner, creation instant and coordinates; its
    title, location name and description are those of the body where the
    body gives one that is not empty and the stored ones otherwise; its
    tags are those of the body when it gives any; the response carries
    that row; every other disaster, every report and every resource is as
    it was. *)
Theorem update_changes_the_given_fields_only u id b w resp w' :
  handle (PutDisaster u id b) w = (Val resp, w') →
  succeeded resp = true →
  ∃ d d',
    find_disaster id (w_disasters w) = Some d
    ∧ find_disaster id (w_disasters w') = Some d'
    ∧ payload resp = DisasterBody (Some d')
    ∧ d_id d' = d_id d ∧ d_owner_id d' = d_owner_id d
    ∧ d_created_at d' = d_created_at d ∧ d_location d' = d_location d
    ∧ d_title d' = kept_or_given (d_title d) (f_title b)
    ∧ d_location_name d' = kept_or_given (d_location_name d) (f_location_name b)
    ∧ d_description d' = kept_or_given (d_description d) (f_description b)
    ∧ d_tags d' = default (d_tags d) (f_tags b)
    ∧ (∀ j, j ≠ id →
            find_disaster j (w_disasters w') = find_disaster j (w_disasters w))
    ∧ w_reports w' = w_reports w ∧ w_resources w' = w_resources w.
Proof.
  cbn. unfold put_disaster. apply guarded_cases; [congruence|].
  intros user Hu _.
  unfold disasters_select_single, disasters_update. unfold_m.
  repeat (cbn; branch); intros.
  all: cbn in *; rewrite ?addAuditEntry_run in *; simplify_eq; cbn in *;
    try congruence.
  all: repeat match goal with
              | H1 : ?x = Some ?a, H2 : ?x = Some ?b |- _ =>
                  rewrite H1 in H2; injection H2 as <-
              end.
  all: eexists _, _; split; [done|]; split;
    [rewrite find_patch_same;
     match goal with H : find_disaster _ _ = Some _ |- _ => by rewrite H end|].
  all: repeat (split; [reflexivity|]).
  all: unfold kept_or_given, given; cbn.
  all: repeat (split; [by repeat case_match|]).
  all: split; [|done]; intros j Hj; by apply find_patch_other.
Qed.

End Ownership.

(** ** Geocoding a disaster *)

Section Geocoding.

Implicit Types (w : world).

(** X16. After a geocoding request answered in the 2xx class: the
    description was read as a location name, which is not "Unknown
    Location"; that name was geocoded to a point; the row of the disaster
    holds the name and the point, longitude first, and is otherwise as it
    was, audit trail included; every other disaster, every report and
    every resource is as it was. *)
Theorem geocoding_sets_the_location_only u id s w resp w' :
  handle (PostGeocode u (Some id) s) w = (Val resp, w') →
  succeeded resp = true →
  ∃ d name coords lon lat w1 w2,
    extractLocationFromDescription (default "" s) w = (Val (JStr name), w1)
    ∧ name ≠ "Unknown Location"
    ∧ geocodeLocation name w1 = (Val coords, w2)
    ∧ prop "lon" coords = Some (JNum lon) ∧ prop "lat" coords = Some (JNum lat)
    ∧ find_disaster id (w_disasters w) = Some d
    ∧ find_disaster id (w_disasters w')
      = Some (Disaster (d_id d) (d_title d) name (Some (lon, lat))
                (d_description d) (d_tags d) (d_owner_id d) (d_created_at d)
                (d_audit_trail d))
    ∧ (∀ j, j ≠ id →
            find_disaster j (w_disasters w') = find_disaster j (w_disasters w))
    ∧ w_reports w' = w_reports w ∧ w_resources w' = w_resources w.
Proof.
  cbn. unfold post_geocode. apply guarded_cases; [congruence|].
  intros user _ _.
  destruct (missing s); [by intros [= <- <-]|].
  unfold try_catch. quiet_step quiet_extractLocation.
  destruct (_ || _) eqn:Hname; [by intros [= <- <-]|].
  destruct a as [| | |name| | |]; try by intros [= <- <-].
  apply orb_false_iff in Hname as [_ Hname%String.eqb_neq].
  quiet_step quiet_geocodeLocation.
  unfold disasters_update_location, disasters_update. unfold_m.
  repeat (cbn; branch); intros; cbn in *; simplify_eq; cbn in *;
    try congruence.
  all: match goal with
       | H : find_disaster _ _ = Some _ |- _ => revert H; frame; intros Hfind
       end.
  all: eexists _, name, _, _, _, _, _.
  all: split; [eassumption|]; split; [done|]; split; [eassumption|].
  all: split; [eassumption|]; split; [eassumption|].
  all: split; [exact Hfind|]; split;
    [by rewrite find_patch_same, Hfind|].
  all: split; [intros j Hj; by apply find_patch_other|done].
Qed.

End Geocoding.

(** ** What a request does to the tables *)

Section Mutations.

Implicit Types (w : world) (r : request).

Ltac mutation_finish :=
  repeat (cbn; branch); cbn;
  repeat match goal with
         | H : find_disaster _ _ = _ |- _ => revert H
         end;
  frame; intros; cbn in *;
  rewrite ?addAuditEntry_run in *; simplify_eq; cbn in *;
  repeat match goal with
         | H1 : ?x = Some ?a, H2 : ?x = Some ?b |- _ =>
             rewrite H1 in H2; injection H2 as <-
         end;
  first [ apply keeps
        | eapply inserts_disaster; cbn; by eauto
        | eapply patches; [eassumption|]; cbn; by eauto
        | apply deletes
        | eapply (inserts_report _ (Report _ _ _ _ _ _ _)); cbn; by eauto
        | apply restatuses ].

Lemma handle_mutation r w :
  mutation w (w_disasters (snd (handle r w))) (w_reports (snd (handle r w)))
           (w_resources (snd (handle r w))) (w_next_id (snd (handle r w))).
Proof.
  destruct r; cbn [handle].
  - unfold post_disaster. apply guarded_cases; [intros; apply keeps|].
    intros user _ _. unfold addAuditEntry, disasters_insert. unfold_m.
    mutation_finish.
  - unfold put_disaster. apply guarded_cases; [intros; apply keeps|].
    intros user _ _. unfold disasters_select_single, disasters_update.
    unfold_m. mutation_finish.
  - unfold delete_disaster. apply guarded_cases; [intros; apply keeps|].
    intros user _ _. unfold disasters_select_single, disasters_delete.
    unfold_m. mutation_finish.
  - unfold post_report. apply guarded_cases; [intros; apply keeps|].
    intros user _ _. unfold reports_insert. unfold_m. mutation_finish.
  - unfold post_resource. apply guarded_cases; [intros; apply keeps|].
    intros user _ _. destruct (_ || _); [apply keeps|].
    unfold try_catch. quiet_step quiet_geocodeLocation.
    unfold resources_insert. unfold_m. mutation_finish.
  - unfold post_verify_image. apply guarded_cases; [intros; apply keeps|].
    intros user _ _. destruct (missing imageUrl); [apply keeps|].
    unfold try_catch. quiet_step quiet_verifyImage.
    unfold reports_update_status. unfold_m. mutation_finish.
  - unfold post_geocode. apply guarded_cases; [intros; apply keeps|].
    intros user _ _. destruct disasterId as [id|]; [|apply keeps].
    destruct (missing description); [apply keeps|].
    unfold try_catch. quiet_step quiet_extractLocation.
    destruct (_ || _); [unfold ret; cbn; frame; apply keeps|].
    destruct a as [| | |name| | |];
      try (unfold ret, throw; cbn; frame; apply keeps).
    quiet_step quiet_geocodeLocation.
    unfold disasters_update_location, disasters_update. unfold_m.
    mutation_finish.
Qed.

Lemma find_app_Some j ds l x :
  find_disaster j ds = Some x → find_disaster j (ds ++ l) = Some x.
Proof.
  unfold find_disaster. induction ds as [|d ds IH]; [done|]. cbn.
  destruct (N.eqb (d_id d) j); [done|apply IH].
Qed.


Lemma find_filter_same id ds :
  find_disaster id (List.filter (λ d, negb (N.eqb (d_id d) id)) ds) = None.
Proof.
  unfold find_disaster. induction ds as [|d ds IH]; [done|]. cbn.
  destruct (N.eqb (d_id d) id) eqn:E; cbn; [apply IH|]. by rewrite E.
Qed.

Lemma find_filter_other id j ds :
  j ≠ id →
  find_disaster j (List.filter (λ d, negb (N.eqb (d_id d) id)) ds)
  = find_disaster j ds.
Proof.
  intros Hne. unfold find_disaster. induction ds as [|d ds IH]; [done|]. cbn.
  destruct (N.eqb (d_id d) id) eqn:E; cbn.
  - apply N.eqb_eq in E.
    destruct (N.eqb (d_id d) j) eqn:E2; [apply N.eqb_eq in E2; congruence|].
    apply IH.
  - destruct (N.eqb (d_id d) j); [done|apply IH].
Qed.







(** X18. Whatever the request and the world, the audit trail of a
    disaster that is an array before the request is, after it, the same
    array with at most one entry appended, unless the disaster is gone:
    no request shortens or rewrites a trail. *)
Theorem audit_trails_only_grow r w j items :
  trail_of j w = Some (JArr items) →
  trail_of j (snd (handle r w)) = None
  ∨ ∃ extra, trail_of j (snd (handle r w)) = Some (JArr (items ++ extra))
             ∧ (length extra ≤ 1)%nat.
Proof.
  unfold trail_of. intros Ht.
  destruct (find_disaster j (w_disasters w)) as [x|] eqn:Hx; [|done].
  injection Ht as Ht.
  assert (Hsame : ∀ ds, find_disaster j ds = Some x →
            ∃ extra, d_audit_trail <$> find_disaster j ds
                     = Some (JArr (items ++ extra)) ∧ (length extra ≤ 1)%nat).
  { intros ds ->. exists []. cbn. rewrite app_nil_r, Ht. split; [done|lia]. }
  destruct (handle_mutation r w) as [|d _ _|id p d Hd Hp| id |? _ _|? ? ?];
    try (right; by apply Hsame).
  - right. apply Hsame. by apply find_app_Some.
  - right. destruct (N.eq_dec j id) as [->|Hne].
    + rewrite find_patch_same, Hx. rewrite Hx in Hd. injection Hd as <-.
      cbn. rewrite Ht. destruct (p_audit_trail p) as [t|]; cbn in Hp |- *.
      * destruct Hp as [entry ->]. rewrite Ht. exists [entry]. split; [done|].
        cbn. lia.
      * exists []. rewrite app_nil_r. split; [done|cbn; lia].
    + apply Hsame. by rewrite find_patch_other.
  - destruct (N.eq_dec j id) as [->|Hne].
    + left. by rewrite find_filter_same.
    + right. apply Hsame. by rewrite find_filter_other.
Qed.

End Mutations.

(** ** Creating and reading a disaster *)

Section Creation.

Implicit Types (w : world).

Lemma post_disaster_success u b w resp w' :
  post_disaster u b w = (Val resp, w') →
  succeeded resp = true →
  ∃ user title location_name description tags,
    authenticate u = inr user
    ∧ f_title b = Some title ∧ title ≠ ""
    ∧ f_location_name b = Some location_name ∧ location_name ≠ ""
    ∧ f_description b = Some description ∧ description ≠ ""
    ∧ f_tags b = Some tags ∧ tags ≠ []
    ∧ resp = Response 201 (DisasterBody (Some
               (Disaster (w_next_id w) title location_name None description
                  tags (u_id user) (w_now w)
                  (JArr [audit_entry "create" (u_id user) (w_now w)]))))
    ∧ w_disasters w'
      = w_disasters w
        ++ [Disaster (w_next_id w) title location_name None description
              tags (u_id user) (w_now w)
              (JArr [audit_entry "create" (u_id user) (w_now w)])]
    ∧ w_reports w' = w_reports w ∧ w_resources w' = w_resources w.
Proof.
  unfold post_disaster. apply guarded_cases; [congruence|].
  intros user Hu _. destruct b as [[t|] [l|] [d|] [g|] o]; cbn;
    rewrite ?orb_true_r; try by intros [= <- <-].
  destruct (String.eqb t "") eqn:Et; [by intros [= <- <-]|].
  destruct (String.eqb l "") eqn:El; [by intros [= <- <-]|].
  destruct (String.eqb d "") eqn:Ed; [by intros [= <- <-]|].
  destruct g as [|tag g]; [by intros [= <- <-]|].
  apply String.eqb_neq in Et, El, Ed.
  unfold addAuditEntry, disasters_insert. unfold_m.
  repeat (cbn; branch); intros; simplify_eq/=; try congruence.
  eexists user, t, l, d, (tag :: g). repeat (split; [done|]). done.
Qed.

(** X19. A creation answered in the 2xx class has stored, at the end of
    the table, the row it answers with: the title, location name,
    description and tags of the body, none of them empty, the sender of
    the request as owner whatever the body says, the instant of the
    request and no coordinates; reports and resources are as they
    were. *)
Theorem creation_stores_the_body_under_its_sender u b w resp w' :
  handle (PostDisaster u b) w = (Val resp, w') →
  succeeded resp = true →
  ∃ user d,
    authenticate u = inr user
    ∧ resp = Response 201 (DisasterBody (Some d))
    ∧ w_disasters w' = w_disasters w ++ [d]
    ∧ f_title b = Some (d_title d) ∧ d_title d ≠ ""
    ∧ f_location_name b = Some (d_location_name d) ∧ d_location_name d ≠ ""
    ∧ f_description b = Some (d_description d) ∧ d_description d ≠ ""
    ∧ f_tags b = Some (d_tags d) ∧ d_tags d ≠ []
    ∧ d_owner_id d = u_id user ∧ d_created_at d = w_now w
    ∧ d_location d = None
    ∧ w_reports w' = w_reports w ∧ w_resources w' = w_resources w.
Proof.
  cbn. intros Hrun Hok.
  destruct (post_disaster_success u b w resp w' Hrun Hok)
    as (user & t & l & d & g & Hu & Ht & Ht' & Hl & Hl' & Hd & Hd' & Hg & Hg'
        & -> & Hds & Hrp & Hrs).
  eexists user, _. split; [done|]. split; [reflexivity|].
  split; [exact Hds|]. cbn. repeat (split; [done|]). done.
Qed.


End Creation.

(** ** Image verification on a miss *)

Section VerificationOnMiss.

Lemma mock_verify_status url :
  prop "status" (mock_verify url)
  = Some (JStr (if includes "authentic" url then "verified"
                else if includes "manipulated" url then "unverified"
                else "pending")).
Proof.
  unfold mock_verify.
  destruct (includes "authentic" url); [done|].
  by destruct (includes "manipulated" url).
Qed.

Lemma verifyImage_cached_call url :
  verifyImage url = cached_call (image_cacheKey url) 800 (mock_verify url).
Proof. reflexivity. Qed.

(** X21. On a miss, whatever the store answers, [verifyImage] returns the
    answer of the mock for the URL, whose status the text of the URL
    decides: verified when it contains "authentic", whether or not it
    contains "manipulated" too; else unverified when it contains
    "manipulated"; else pending. *)
Theorem verifyImage_miss_decides_by_url url w :
  no_live_entry (image_cacheKey url) w →
  ∃ w1, verifyImage url w = (Val (mock_verify url), w1)
        ∧ prop "status" (mock_verify url)
          = Some (JStr (if includes "authentic" url then "verified"
                        else if includes "manipulated" url then "unverified"
                        else "pending")).
Proof.
  intros Hn. rewrite verifyImage_cached_call.
  destruct (cached_call_miss_value _ 800 (mock_verify url) w Hn) as (w1 & E).
  exists w1. split; [exact E|apply mock_verify_status].
Qed.

End VerificationOnMiss.

(** ** The routes that read *)

Section ReadRoutes.

(** The order in which the store answers the rows it sorts, and the
    instant at which the modules of the two providers were loaded. *)
Variable newest_first : list resource → list resource.
Variable loaded : Z.

Implicit Types (w : world).

Lemma quiet_cached_call key delay answer : quiet (cached_call key delay answer).
Proof.
  unfold cached_call.
  apply quiet_bind; [apply quiet_getCache|]. intros cached.
  apply quiet_if; [apply quiet_ret|].
  apply quiet_bind; [apply quiet_sleep|]. intros _.
  apply quiet_bind; [apply quiet_setCache|]. intros _. apply quiet_ret.
Qed.

Lemma quiet_fetchSocialMediaReports random disasterId query :
  quiet (fetchSocialMediaReports loaded random disasterId query).
Proof. rewrite fetchSocialMediaReports_cached_call. apply quiet_cached_call. Qed.

Lemma quiet_fetchOfficialUpdates source :
  quiet (fetchOfficialUpdates loaded source).
Proof. rewrite fetchOfficialUpdates_cached_call. apply quiet_cached_call. Qed.

(** X22. A request for the resources of a disaster that gives a latitude
    and a longitude gets no rows, whatever the table holds: it is answered
    400 or 500, and 500 whenever both are read as numbers and the radius
    is absent or a number above 0; nothing is asked of the store, and the
    world is as it was. *)
Theorem radius_requests_get_no_rows d lat lon radius type w :
  lat ≠ Absent → lon ≠ Absent →
  ∃ resp,
    get_resources newest_first d lat lon radius type w = (Val resp, w)
    ∧ (status resp = 400 ∨ status resp = 500)
    ∧ (∀ la lo, lat = Parsed la → lon = Parsed lo →
                radius = Absent ∨ (∃ R, radius = Parsed R ∧ 0 < R) →
                resp = Response 500 (Message "Internal server error while fetching resources.")).
Proof.
  intros Hlat Hlon. unfold get_resources, try_catch, ret, throw.
  destruct lat as [| |la]; [done| |]; destruct lon as [| |lo]; try done.
  1-3: (eexists; split; [reflexivity|]; split; [by left|]; congruence).
  destruct radius as [| |R]; cbn.
  - eexists. split; [reflexivity|]. split; [by right|done].
  - eexists. split; [reflexivity|]. split; [by left|].
    intros _ _ _ _ [H|(R & H & _)]; discriminate H.
  - destruct (R <=? 0) eqn:E.
    + eexists. split; [reflexivity|]. split; [by left|].
      intros _ _ _ _ [H|(R' & [= <-] & HR)]; [discriminate H|].
      apply Z.leb_le in E. lia.
    + eexists. split; [reflexivity|]. split; [by right|done].
Qed.

(** X23. Whatever the cache holds and whatever the store answers, the
    four routes that read, given query parameters that are texts or
    absent, return a response and leave the tables, the identifier
    supply, the socket and the history as they were; and the social-media
    route answers 200. *)
Theorem read_routes_leave_the_records random disasterId query source id d
    lat lon radius type w :
  (∃ reports w',
     get_social_media loaded random disasterId query w
     = (Val (JsonResponse 200 reports), w') ∧ records w' = records w)
  ∧ (∃ resp w',
       get_official_updates loaded source w = (Val resp, w')
       ∧ records w' = records w)
  ∧ (∃ resp w', get_disaster id w = (Val resp, w') ∧ records w' = records w)
  ∧ (∃ resp w',
       get_resources newest_first d lat lon radius type w = (Val resp, w')
       ∧ records w' = records w).
Proof.
  split; [|split; [|split]].
  - unfold get_social_media, try_catch.
    quiet_step quiet_fetchSocialMediaReports.
    eexists _, _. split; [reflexivity|]. unfold records. congruence.
  - unfold get_official_updates, try_catch.
    destruct (negb (missing source)).
    + quiet_step quiet_fetchOfficialUpdates.
      eexists _, _. split; [reflexivity|]. unfold records. congruence.
    + unfold bind at 1. quiet_step quiet_fetchOfficialUpdates.
      quiet_step quiet_fetchOfficialUpdates.
      destruct (spread a) as [f|], (spread a0) as [r|]; cbn;
        (eexists _, _; split; [reflexivity|]; unfold records; congruence).
  - unfold get_disaster, disasters_select_single. unfold_m.
    repeat (cbn; branch); by eexists _, _.
  - unfold get_resources, resources_select. unfold_m.
    repeat (cbn; branch); by eexists _, _.
Qed.

End ReadRoutes.

Section UnknownDescriptions.

Implicit Types (w : world).

Lemma extractLocation_cached_call description :
  extractLocationFromDescription description
  = cached_call (location_cacheKey description) 500 (mock_extract description).
Proof. reflexivity. Qed.

(** X24. A description that contains neither "NYC Flood" nor "Japan
    earthquake", and for which the cache holds no live entry, is not
    geocoded: whatever the store answers, an allowed user is answered 400
    and the tables, the identifier supply and the history are as they
    were. *)
Theorem unrecognised_description_is_not_geocoded u user id s w :
  authenticate u = inr user →
  authorize ["admin"; "contributor"] user = None →
  s ≠ "" →
  includes "NYC Flood" s = false →
  includes "Japan earthquake" s = false →
  no_live_entry (location_cacheKey s) w →
  ∃ w',
    handle (PostGeocode u (Some id) (Some s)) w
    = (Val (Response 400 (Message "Could not extract a valid location from the provided description.")), w')
    ∧ records w' = records w.
Proof.
  intros Hu Hz Hs Hn Hj Hmiss. cbn. unfold post_geocode, guarded.
  rewrite Hu, Hz. cbn [missing]. apply String.eqb_neq in Hs. rewrite Hs.
  change (default "" (Some s)) with s.
  unfold try_catch. quiet_step quiet_extractLocation.
  rewrite extractLocation_cached_call in Hrun.
  destruct (cached_call_miss_value _ 500 (mock_extract s) w Hmiss) as (w' & E).
  rewrite E in Hrun. injection Hrun as <- <-.
  unfold mock_extract. rewrite Hn, Hj. cbn.
  eexists. split; [reflexivity|]. unfold records. congruence.
Qed.

End UnknownDescriptions.

(** ** Further scenarios *)

Lemma no_live_entry_empty key w : w_cache w = ∅ → no_live_entry key w.
Proof. intros H row. by rewrite H, lookup_empty. Qed.

Lemma reachable_flood_world : reachable flood_world.
Proof. apply reachable_handle, reachable_boot. Qed.

Lemma reachable_verified_world : reachable verified_world.
Proof.
  unfold verified_world, reported_world.
  do 2 apply reachable_handle. apply reachable_clock, reachable_flood_world.
Qed.


(** The geocoding cached by the shelter, and an unrelated key. *)
Lemma cache_calls_keep_other_keys_witness :
  w_cache (snd (getCache "k" manhattan_world)) !! geocode_cacheKey "Manhattan, NYC"
  = w_cache manhattan_world !! geocode_cacheKey "Manhattan, NYC"
  ∧ w_cache (snd (setCache "k" (JStr "v") 3600 manhattan_world))
      !! geocode_cacheKey "Manhattan, NYC"
    = w_cache manhattan_world !! geocode_cacheKey "Manhattan, NYC".
Proof.
  apply (cache_calls_keep_other_keys "k" (geocode_cacheKey "Manhattan, NYC")
           (JStr "v") 3600 manhattan_world).
  by vm_compute.
Defined.

(** The geocoding of Manhattan, read at its expiry: the entry is deleted. *)
Lemma getCache_evicts_expired_entries_witness :
  w_cache (snd (getCache (geocode_cacheKey "Manhattan, NYC")
                  (set_now 3601300 manhattan_world)))
  = delete (geocode_cacheKey "Manhattan, NYC") (w_cache manhattan_world).
Proof.
  apply (getCache_evicts_expired_entries (geocode_cacheKey "Manhattan, NYC")
           (set_now 3601300 manhattan_world)).
  reflexivity.
Defined.



(** A shelter for the flood, asked by its owner. *)
Lemma resource_creation_is_always_refused_witness :
  ∃ resp w',
    handle resource_request flood_world = (Val resp, w')
    ∧ In (status resp) [400; 401; 403; 500]
    ∧ records w' = records flood_world.
Proof.
  apply (resource_creation_is_always_refused (Some "netrunnerX") 1
           (Some "Red Cross Shelter") (Some "Lower East Side, NYC")
           (Some "shelter") flood_world).
Defined.

(** The posts of the flood that mention a shelter, asked in capitals. *)
Lemma social_media_miss_answer_witness :
  ∃ posts w',
    fetchSocialMediaReports 0 (1 # 2) "sample_nyc_flood" (Some "SHELTER")
      (boot 1000)
    = (Val (JArr (List.map post_json posts)), w')
    ∧ (∀ p, In p posts →
            In p (MOCK_SOCIAL_MEDIA_DATA 0)
            ∧ sp_disaster_id p = "sample_nyc_flood"
            ∧ includes (toLowerCase (default "" (Some "SHELTER")))
                       (toLowerCase (sp_content p)) = true)
    ∧ ((1 # 2 < 2 # 10)%Q → posts = [])
    ∧ ((2 # 10 <= 1 # 2)%Q →
         (∀ p, In p (MOCK_SOCIAL_MEDIA_DATA 0) →
               sp_disaster_id p = "sample_nyc_flood" →
               includes (toLowerCase (default "" (Some "SHELTER")))
                        (toLowerCase (sp_content p)) = true →
               In p posts)
         ∧ (default "" (Some "SHELTER") = "" →
              posts = List.filter
                        (λ p, String.eqb (sp_disaster_id p) "sample_nyc_flood")
                        (MOCK_SOCIAL_MEDIA_DATA 0))).
Proof.
  apply (social_media_miss_answer 0 (1 # 2) "sample_nyc_flood" (Some "SHELTER")
           (boot 1000)).
  by apply no_live_entry_empty.
Defined.



(** The four updates of a process that has just started. *)
Lemma official_updates_of_all_sources_witness :
  ∃ fema redcross w',
    mock_updates 0 "fema" = JArr fema
    ∧ mock_updates 0 "redcross" = JArr redcross
    ∧ length fema = 2%nat ∧ length redcross = 2%nat
    ∧ get_official_updates 0 None (boot 1000)
      = (Val (JsonResponse 200 (JArr (fema ++ redcross))), w').
Proof.
  apply (official_updates_of_all_sources 0 (boot 1000));
    by apply no_live_entry_empty.
Defined.

(** The report of citizen1 on the flood. *)
Lemma only_allowed_users_change_the_records_witness :
  ∃ user role,
    header report_request = Some (u_id user) ∧ In user mockUsers
    ∧ In role (allowed_roles report_request) ∧ In role (u_roles user).
Proof.
  apply (only_allowed_users_change_the_records report_request flood_world
           (response_of (handle report_request flood_world))
           (snd (handle report_request flood_world))).
  - by vm_compute.
  - left. by vm_compute.
Defined.

(** A citizen may not create a disaster. *)
Lemma other_requests_are_refused_untouched_witness :
  ∃ resp,
    handle (PostDisaster (Some "citizen1") nyc_flood) (boot 1000)
    = (Val resp, boot 1000)
    ∧ status resp
      = (if missing (header (PostDisaster (Some "citizen1") nyc_flood))
         then 401 else 403).
Proof.
  apply (other_requests_are_refused_untouched
           (PostDisaster (Some "citizen1") nyc_flood) (boot 1000)).
  reflexivity.
Defined.

(** The flood deleted with its report and its shelters. *)
Lemma delete_removes_the_disaster_and_its_rows_witness :
  (∀ d, In d (w_disasters (snd (handle delete_request relief_world)))
        ↔ In d (w_disasters relief_world) ∧ d_id d ≠ 1%N)
  ∧ (∀ rp, In rp (w_reports (snd (handle delete_request relief_world)))
           ↔ In rp (w_reports relief_world) ∧ rp_disaster_id rp ≠ 1%N)
  ∧ (∀ rs, In rs (w_resources (snd (handle delete_request relief_world)))
           ↔ In rs (w_resources relief_world) ∧ rs_disaster_id rs ≠ 1%N).
Proof.
  apply (delete_removes_the_disaster_and_its_rows (Some "netrunnerX") 1
           relief_world (response_of (handle delete_request relief_world)));
    by vm_compute.
Defined.

(** The flood deleted by its owner. *)
Lemma only_owner_or_admin_updates_or_deletes_witness :
  ∃ user d,
    authenticate (Some "netrunnerX") = inr user
    ∧ find_disaster 1 (w_disasters relief_world) = Some d
    ∧ (has_role "admin" user = true ∨ d_owner_id d = u_id user).
Proof.
  apply (only_owner_or_admin_updates_or_deletes delete_request relief_world
           (response_of (handle delete_request relief_world))
           (snd (handle delete_request relief_world))).
  - by vm_compute.
  - left. by vm_compute.
Defined.

(** volunteerA, a contributor, may not update the flood of netrunnerX. *)
Lemma other_contributors_cannot_update_or_delete_witness :
  ∃ resp,
    handle foreign_update_request flood_world
    = (Val resp, set_faults (tl (w_faults flood_world)) flood_world)
    ∧ status resp = 403.
Proof.
  apply (other_contributors_cannot_update_or_delete foreign_update_request
           flood_world volunteerA flood_row);
    first [reflexivity | discriminate | by vm_compute].
Defined.

(** The description of the flood updated at instant 2000. *)
Lemma update_changes_the_given_fields_only_witness :
  ∃ d d',
    find_disaster 1 (w_disasters (set_now 2000 flood_world)) = Some d
    ∧ find_disaster 1
        (w_disasters (snd (handle update_request (set_now 2000 flood_world))))
      = Some d'
    ∧ payload (response_of (handle update_request (set_now 2000 flood_world)))
      = DisasterBody (Some d')
    ∧ d_id d' = d_id d ∧ d_owner_id d' = d_owner_id d
    ∧ d_created_at d' = d_created_at d ∧ d_location d' = d_location d
    ∧ d_title d' = kept_or_given (d_title d) None
    ∧ d_location_name d' = kept_or_given (d_location_name d) None
    ∧ d_description d'
      = kept_or_given (d_description d) (Some "Water is rising")
    ∧ d_tags d' = default (d_tags d) None
    ∧ (∀ j, j ≠ 1%N →
            find_disaster j
              (w_disasters (snd (handle update_request (set_now 2000 flood_world))))
            = find_disaster j (w_disasters (set_now 2000 flood_world)))
    ∧ w_reports (snd (handle update_request (set_now 2000 flood_world)))
      = w_reports (set_now 2000 flood_world)
    ∧ w_resources (snd (handle update_request (set_now 2000 flood_world)))
      = w_resources (set_now 2000 flood_world).
Proof.
  apply (update_changes_the_given_fields_only (Some "netrunnerX") 1
           (Fields None None (Some "Water is rising") None [])
           (set_now 2000 flood_world)
           (response_of (handle update_request (set_now 2000 flood_world))));
    by vm_compute.
Defined.

(** The flood geocoded from a description that names it. *)
Lemma geocoding_sets_the_location_only_witness :
  ∃ d name coords lon lat w1 w2,
    extractLocationFromDescription (default "" (Some "NYC Flood near the river"))
      flood_world
    = (Val (JStr name), w1)
    ∧ name ≠ "Unknown Location"
    ∧ geocodeLocation name w1 = (Val coords, w2)
    ∧ prop "lon" coords = Some (JNum lon) ∧ prop "lat" coords = Some (JNum lat)
    ∧ find_disaster 1 (w_disasters flood_world) = Some d
    ∧ find_disaster 1 (w_disasters (snd (handle geocode_request flood_world)))
      = Some (Disaster (d_id d) (d_title d) name (Some (lon, lat))
                (d_description d) (d_tags d) (d_owner_id d) (d_created_at d)
                (d_audit_trail d))
    ∧ (∀ j, j ≠ 1%N →
            find_disaster j (w_disasters (snd (handle geocode_request flood_world)))
            = find_disaster j (w_disasters flood_world))
    ∧ w_reports (snd (handle geocode_request flood_world)) = w_reports flood_world
    ∧ w_resources (snd (handle geocode_request flood_world))
      = w_resources flood_world.
Proof.
  apply (geocoding_sets_the_location_only (Some "netrunnerX") 1
           (Some "NYC Flood near the river") flood_world
           (response_of (handle geocode_request flood_world)));
    by vm_compute.
Defined.


(** The trail of the flood along an update. *)
Lemma audit_trails_only_grow_witness :
  trail_of 1 (snd (handle update_request flood_world)) = None
  ∨ ∃ extra,
      trail_of 1 (snd (handle update_request flood_world))
      = Some (JArr ([audit_entry "create" "netrunnerX" 1000] ++ extra))
      ∧ (length extra ≤ 1)%nat.
Proof.
  apply (audit_trails_only_grow update_request flood_world 1
           [audit_entry "create" "netrunnerX" 1000]).
  reflexivity.
Defined.

(** The creation of the flood. *)
Lemma creation_stores_the_body_under_its_sender_witness :
  ∃ user d,
    authenticate (Some "netrunnerX") = inr user
    ∧ response_of (handle (PostDisaster (Some "netrunnerX") nyc_flood) (boot 1000))
      = Response 201 (DisasterBody (Some d))
    ∧ w_disasters flood_world = w_disasters (boot 1000) ++ [d]
    ∧ f_title nyc_flood = Some (d_title d) ∧ d_title d ≠ ""
    ∧ f_location_name nyc_flood = Some (d_location_name d)
    ∧ d_location_name d ≠ ""
    ∧ f_description nyc_flood = Some (d_description d) ∧ d_description d ≠ ""
    ∧ f_tags nyc_flood = Some (d_tags d) ∧ d_tags d ≠ []
    ∧ d_owner_id d = u_id user ∧ d_created_at d = w_now (boot 1000)
    ∧ d_location d = None
    ∧ w_reports flood_world = w_reports (boot 1000)
    ∧ w_resources flood_world = w_resources (boot 1000).
Proof.
  apply (creation_stores_the_body_under_its_sender (Some "netrunnerX") nyc_flood
           (boot 1000)
           (response_of (handle (PostDisaster (Some "netrunnerX") nyc_flood)
                           (boot 1000)))
           flood_world);
    by vm_compute.
Defined.


(** An image whose URL contains both words, verified first. *)
Lemma verifyImage_miss_decides_by_url_witness :
  ∃ w1,
    verifyImage "http://img.example/authentic-or-manipulated.png" flood_world
    = (Val (mock_verify "http://img.example/authentic-or-manipulated.png"), w1)
    ∧ prop "status"
        (mock_verify "http://img.example/authentic-or-manipulated.png")
      = Some (JStr (if includes "authentic"
                         "http://img.example/authentic-or-manipulated.png"
                    then "verified"
                    else if includes "manipulated"
                              "http://img.example/authentic-or-manipulated.png"
                         then "unverified" else "pending")).
Proof.
  apply (verifyImage_miss_decides_by_url
           "http://img.example/authentic-or-manipulated.png" flood_world).
  by apply no_live_entry_empty.
Defined.

(** The shelters within the default radius of (0, 0), where one of them
    stands. *)
Lemma radius_requests_get_no_rows_witness :
  ∃ resp,
    get_resources (λ rows, rows) 1 (Parsed 0%Q) (Parsed 0%Q) Absent
      (Some "shelter") relief_world
    = (Val resp, relief_world)
    ∧ (status resp = 400 ∨ status resp = 500)
    ∧ (∀ la lo, Parsed 0%Q = Parsed la → Parsed 0%Q = Parsed lo →
                @Absent Z = Absent ∨ (∃ R, Absent = Parsed R ∧ 0 < R) →
                resp = Response 500 (Message "Internal server error while fetching resources.")).
Proof.
  apply (radius_requests_get_no_rows (λ rows, rows) 1 (Parsed 0%Q) (Parsed 0%Q)
           Absent (Some "shelter") relief_world); discriminate.
Defined.

(** A description the mock does not recognise. *)
Lemma unrecognised_description_is_not_geocoded_witness :
  ∃ w',
    handle (PostGeocode (Some "netrunnerX") (Some 1%N) (Some "Fire in Paris"))
      flood_world
    = (Val (Response 400 (Message "Could not extract a valid location from the provided description.")), w')
    ∧ records w' = records flood_world.
Proof.
  apply (unrecognised_description_is_not_geocoded (Some "netrunnerX") netrunnerX
           1 "Fire in Paris" flood_world);
    first [reflexivity | discriminate].
Defined.
